(** * Embassy e-mail harvesting and sending: a shallow embedding

    Two batch jobs of the repository are modelled here.

    - [emailScrapper/scrapper.py]: the detail extractor
      ([extract_embassy_emails]) and the scrape loop
      ([scrape_country], [scrape_all_countries]);
    - [emailService/main.py]: the send log store ([load_sent_log],
      [save_sent_log]), the mail submission ([send_email]) and the send
      loop ([process_embassies]).

    Everything outside the process (the web site, the SMTP relay, the
    clock, the file system) is an oracle that the definitions take as
    an argument; everything the process does to the outside is recorded
    in a trace of events. *)

From Stdlib Require Import ZArith Ascii String.
From stdpp Require Import base option list gmap strings pretty.

Set Warnings "-register-all".
Open Scope string_scope.
Open Scope list_scope.

(** ** Python string operations used by the code *)

Module PyStr.

(** A [string] stands for a Python [str] whose characters have code
    points below 256, one [ascii] for each character.  [is_space] holds
    of the characters in that range for which [str.isspace] holds, the
    ones [str.strip()] removes: the tabulation, line and separator
    controls 9 to 13 and 28 to 31, the space, the next-line control 133
    and the no-break space 160. *)
Definition is_space (c : ascii) : bool :=
  let n := nat_of_ascii c in
  ((9 <=? n)%nat && (n <=? 13)%nat) || ((28 <=? n)%nat && (n <=? 32)%nat)
  || (n =? 133)%nat || (n =? 160)%nat.

Definition is_empty (s : string) : bool :=
  match s with EmptyString => true | String _ _ => false end.

Fixpoint lstrip (s : string) : string :=
  match s with
  | EmptyString => EmptyString
  | String c s' => if is_space c then lstrip s' else s
  end.

Fixpoint rstrip (s : string) : string :=
  match s with
  | EmptyString => EmptyString
  | String c s' =>
      let r := rstrip s' in
      if is_space c && is_empty r then EmptyString else String c r
  end.

(** [s.strip()] *)
Definition strip (s : string) : string := rstrip (lstrip s).

(** [s.startswith(p)] *)
Fixpoint startswith (p s : string) : bool :=
  match p, s with
  | EmptyString, _ => true
  | String a p', String b s' => if Ascii.eqb a b then startswith p' s' else false
  | String _ _, EmptyString => false
  end.

(** [sub in s] *)
Fixpoint contains (sub s : string) : bool :=
  startswith sub s ||
  match s with
  | EmptyString => false
  | String _ s' => contains sub s'
  end.

(** [s.replace(old, "")] for a non-empty [old]: a left-to-right scan
    that drops every non-overlapping occurrence.  [skip] counts the
    characters of the occurrence being dropped that are still ahead. *)
Fixpoint remove_from (old s : string) (skip : nat) : string :=
  match s with
  | EmptyString => EmptyString
  | String c s' =>
      match skip with
      | S k => remove_from old s' k
      | O =>
          if startswith old s
          then remove_from old s' (String.length old - 1)
          else String c (remove_from old s' 0)
      end
  end.

Definition remove_all (old s : string) : string := remove_from old s 0.

End PyStr.

(** ** The scrape artifact

    One value of the JSON mapping the scraper writes and the sender
    reads: [{"emails": [...]}] or [{"error": "..."}]. *)

Inductive EmailResult :=
| Found (emails : list string)
| NotFound (error : string).

#[global] Instance EmailResult_eq_dec : EqDecision EmailResult.
Proof. solve_decision. Defined.

(** A Python [dict] whose iteration order matters: keys are unique and
    kept in insertion order; assigning to a present key replaces the
    value in place. *)
Section pydict.
Context {V : Type}.

Fixpoint pydict_set (k : string) (v : V) (d : list (string * V)) : list (string * V) :=
  match d with
  | [] => [(k, v)]
  | (k', v') :: d' =>
      if decide (k' = k) then (k, v) :: d' else (k', v') :: pydict_set k v d'
  end.

Fixpoint pydict_get (k : string) (d : list (string * V)) : option V :=
  match d with
  | [] => None
  | (k', v') :: d' => if decide (k' = k) then Some v' else pydict_get k d'
  end.
End pydict.

(** ** emailScrapper/scrapper.py *)

Module Scrapper.

(** A parsed page as the HTML library hands it over.  Of an element
    the code looks at its name, its [class] tokens and its [href]. *)
Inductive node :=
| NText (text : string)
| NTag (name : string) (classes : list string) (href : option string)
       (children : list node).

(** All nodes below [n] in document order. *)
Fixpoint descendants (n : node) : list node :=
  match n with
  | NText _ => []
  | NTag _ _ _ cs =>
      (fix go (l : list node) : list node :=
         match l with
         | [] => []
         | c :: l' => c :: descendants c ++ go l'
         end) cs
  end.

(** The document object: its top-level nodes. *)
Definition soup_nodes (soup : list node) : list node :=
  flat_map (fun n => n :: descendants n) soup.

Definition contact_class : string := "tsg-rwd-consular-notifications-fram-for-info".

Definition is_contact_div (n : node) : bool :=
  match n with
  | NTag name classes _ _ =>
      bool_decide (name = "div") && bool_decide (contact_class ∈ classes)
  | NText _ => false
  end.

(** [soup.find("div", class_=...)]: the first match in document order. *)
Definition find_contact_div (soup : list node) : option node :=
  List.find is_contact_div (soup_nodes soup).

(** The filter of [find_all("a", href=lambda href: href and "mailto:" in href)];
    it yields the [href] of an anchor that passes. *)
Definition mailto_href (n : node) : option string :=
  match n with
  | NTag name _ (Some h) _ =>
      if bool_decide (name = "a") && negb (PyStr.is_empty h) && PyStr.contains "mailto:" h
      then Some h else None
  | _ => None
  end.

Definition email_links (contact_div : node) : list string :=
  omap mailto_href (descendants contact_div).

(** [link["href"].replace("mailto:", "").strip()] *)
Definition clean (href : string) : string :=
  PyStr.strip (PyStr.remove_all "mailto:" href).

(** One turn of the [for link in email_links] loop. *)
Definition collect (emails : list string) (href : string) : list string :=
  let email := clean href in
  if negb (PyStr.is_empty email) && negb (bool_decide (email ∈ emails))
  then emails ++ [email]
  else emails.

Definition extract_embassy_emails (soup : list node) : EmailResult :=
  match find_contact_div soup with
  | None => NotFound "Contact section not found"
  | Some contact_div =>
      let emails := fold_left collect (email_links contact_div) [] in
      match emails with
      | [] => NotFound "No embassy emails found"
      | _ :: _ => Found emails
      end
  end.

(** *** The scrape loop *)

(** What [requests.get] and [raise_for_status] do for one request:
    they raise, or the body parses to a document. *)
Inductive response :=
| Raises (e : string)
| Page (soup : list node).

(** What the scraper does to the outside; console output is left out. *)
Inductive event :=
| Get (url : string)
| Sleep (secs : Z)
| Dump (path : string) (data : list (string * EmailResult)).

Record country := { name : string; url : string }.

(** The fields of [EmbassyScraper] that change, the requests made so
    far, and the events so far in the order they happened. *)
Record scraper := {
  embassy_data : list (string * EmailResult);
  requests : nat;
  out : list event
}.

Definition EmbassyScraper : scraper :=
  {| embassy_data := []; requests := 0; out := [] |}.

Section scrape.
(** [web k url]: the outcome of the [k]-th request of the run. *)
Variable web : nat -> string -> response.

Definition scrape_country (self : scraper) (c : country) : scraper :=
  match web (requests self) (url c) with
  | Page soup =>
      let result := extract_embassy_emails soup in
      {| embassy_data := pydict_set (name c) result (embassy_data self);
         requests := S (requests self);
         out := out self ++ [Get (url c); Sleep 2] |}
  | Raises e =>
      {| embassy_data := pydict_set (name c) (NotFound e) (embassy_data self);
         requests := S (requests self);
         out := out self ++ [Get (url c)] |}
  end.

(** [countries] is what [get_country_links] returned. *)
Definition scrape_all_countries (countries : list country) (self : scraper) : scraper :=
  let self' := fold_left scrape_country countries self in
  {| embassy_data := embassy_data self';
     requests := requests self';
     out := out self' ++ [Dump "embassy_emails.json" (embassy_data self')] |}.
End scrape.

(** *** The extractor's result, in the words of the specification *)

(** The addresses of the mailto anchors of the container, cleaned,
    without the ones that come out empty. *)
Definition addresses (contact_div : node) : list string :=
  filter (fun e => e <> "") (clean <$> email_links contact_div).

(** Deduplication that keeps the first occurrence of every element. *)
Fixpoint dedup_first (l : list string) : list string :=
  match l with
  | [] => []
  | x :: l' => x :: filter (fun y => y <> x) (dedup_first l')
  end.

End Scrapper.

(** ** emailService/main.py *)

Module Service.

(** One value of the send log: [{"email": .., "sent_date": .., "status": ..}]. *)
Record entry := { email : string; sent_date : string; status : string }.

#[global] Instance entry_eq_dec : EqDecision entry.
Proof. solve_decision. Defined.

(** The send log, a [dict] keyed by country. *)
Abbreviation SendLog := (gmap string entry).

(** A JSON file as the loaders see it: absent, present but raising
    when opened or parsed, or holding a well-formed value. *)
Inductive file (A : Type) :=
| Missing
| Unreadable (e : string)
| Holds (content : A).
Arguments Missing {A}.
Arguments Unreadable {A} e.
Arguments Holds {A} content.

#[global] Instance file_eq_dec {A} `{EqDecision A} : EqDecision (file A).
Proof. solve_decision. Defined.

Inductive level := INFO | WARNING | ERROR.

(** What the sender does to the outside, in the order it happens. *)
Inductive event :=
| Log (lvl : level) (msg : string)
| Submit (recipient country : string) (attached : list string)
| WriteLog (content : SendLog)
| Sleep (secs : Z).

(** What reading one attachment path gives [add_attachment]. *)
Inductive attach_result :=
| Attached (filename : string)
| NoSuchFile
| AttachRaised (e : string).

(** What the SMTP exchange of one message does: it goes through, it
    raises an [Exception], or the user interrupts it.  An interrupt is
    modelled at this point of a turn only; the pauses and the file
    write are taken to run to their end. *)
Inductive delivery :=
| Delivered
| Raised (e : string)
| Interrupted.

(** What writing the send log file does: it succeeds, or it raises.
    A write that raises leaves the file as it was ([wreck = None]) or
    leaves it cut short, so that reading it raises ([wreck = Some m],
    [m] the message of that later error). *)
Inductive write_result :=
| Written
| WriteRaised (e : string) (wreck : option string).

(** The outside world of one run.  The number is the position of the
    country being processed (the value of [processed]). *)
Record Env := {
  attach : string -> attach_result;
  smtp : nat -> string -> string -> delivery;
  now : nat -> string;
  fs_write : nat -> write_result
}.

Definition load_sent_log (f : file SendLog) : SendLog * list event :=
  match f with
  | Holds content => (content, [])
  | Missing => (∅, [])
  | Unreadable e => (∅, [Log ERROR ("Error loading sent log: " +:+ e)])
  end.

Definition save_sent_log (w : write_result) (sent_data : SendLog) (f : file SendLog)
  : file SendLog * list event :=
  match w with
  | Written => (Holds sent_data, [WriteLog sent_data])
  | WriteRaised e wreck =>
      (match wreck with None => f | Some m => Unreadable m end,
       [WriteLog sent_data; Log ERROR ("Error saving sent log: " +:+ e)])
  end.

Abbreviation Artifact := (list (string * EmailResult)).

Definition load_embassy_data (file_path : string) (f : file Artifact) : Artifact * list event :=
  let start := Log INFO ("Loading embassy data from " +:+ file_path +:+ "...") in
  match f with
  | Holds data =>
      (data, [start; Log INFO ("Loaded data for " +:+ pretty (length data) +:+ " countries")])
  | Unreadable e => ([], [start; Log ERROR ("Error loading embassy data: " +:+ e)])
  | Missing =>
      ([], [start;
            Log ERROR ("Error loading embassy data: [Errno 2] No such file or directory: '"
                       +:+ file_path +:+ "'")])
  end.

Definition add_attachment (r : attach_result) (file_path : string) : option string * list event :=
  match r with
  | NoSuchFile => (None, [Log ERROR ("Attachment file not found: " +:+ file_path)])
  | Attached filename => (Some filename, [Log INFO ("Successfully attached file: " +:+ filename)])
  | AttachRaised e =>
      (None, [Log ERROR ("Failed to add attachment " +:+ file_path +:+ ": " +:+ e)])
  end.

(** The [for attachment_path in attachments] loop of [send_email]:
    the names attached and the log lines. *)
Fixpoint add_attachments (env : Env) (attachments : list string) : list string * list event :=
  match attachments with
  | [] => ([], [])
  | p :: ps =>
      let '(r, ev) := add_attachment (attach env p) p in
      let '(names, evs) := add_attachments env ps in
      match r with
      | Some n => (n :: names, ev ++ evs)
      | None => (names, ev ++ [Log WARNING ("Failed to add attachment: " +:+ p)] ++ evs)
      end
  end.

(** [send_email]: [Some true] and [Some false] are its two return
    values; [None] is an interrupt, which its handler does not catch. *)
Definition send_email (env : Env) (k : nat) (recipient_email country : string)
    (attachments : list string) : option bool * list event :=
  let '(names, evs) := add_attachments env attachments in
  let submit := Submit recipient_email country names in
  match smtp env k recipient_email country with
  | Delivered =>
      (Some true,
       evs ++ [submit;
               Log INFO ("Email sent successfully to " +:+ country +:+ " (" +:+ recipient_email +:+ ")")])
  | Raised e =>
      (Some false,
       evs ++ [submit;
               Log ERROR ("Failed to send email to " +:+ country +:+ " (" +:+ recipient_email
                          +:+ "): " +:+ e)])
  | Interrupted => (None, evs ++ [submit])
  end.

(** The variables of [process_embassies] that change in the loop, and
    the send log file. *)
Record state := {
  sent_log : SendLog;
  disk : file SendLog;
  processed : nat
}.

(** How one turn of the loop ends: the loop goes on, or an exception
    leaves it. *)
Inductive flow :=
| Next
| KeyboardInterrupt
| Exception (e : string).

(** [processed += 1] *)
Definition bump (st : state) : state :=
  {| sent_log := sent_log st; disk := disk st; processed := S (processed st) |}.

(** The check after an attempt: [if processed % batch_size == 0].
    Python's [%] takes the sign of the divisor, as [Z.modulo] does,
    and raises on a zero divisor (the wording of that error is the
    interpreter's; nothing below depends on it). *)
Definition batch_pause (batch_size : Z) (total : nat) (st : state) : list event * flow :=
  if decide (batch_size = 0%Z) then ([], Exception "integer modulo by zero")
  else if decide ((Z.of_nat (processed st) mod batch_size)%Z = 0%Z) then
    ([Log INFO ("Processed " +:+ pretty (processed st) +:+ " out of " +:+ pretty total
                +:+ " countries");
      Log INFO "Taking a 1 hour break...";
      Sleep 3600], Next)
  else ([], Next).

(** The body of [for country, info in embassy_data.items()]. *)
Definition process_country (env : Env) (batch_size : Z) (attachments : list string)
    (total : nat) (st : state) (item : string * EmailResult)
  : state * list event * flow :=
  let '(country, info) := item in
  let st := bump st in
  let k := processed st in
  let ev0 := [Log INFO ("Processing country " +:+ pretty k +:+ "/" +:+ pretty total +:+ ": "
                        +:+ country)] in
  if decide (is_Some (sent_log st !! country)) then
    (st, ev0 ++ [Log INFO ("Skipping " +:+ country +:+ " - already contacted")], Next)
  else
    match info with
    | NotFound _ | Found [] =>
        (st, ev0 ++ [Log WARNING ("No email found for " +:+ country)], Next)
    | Found (email :: others) =>
        let ev1 :=
          [Log INFO ("Found " +:+ pretty (length (email :: others)) +:+ " email(s) for "
                     +:+ country);
           Log INFO ("Sending email to " +:+ country +:+ " (" +:+ email +:+ ")...")] in
        let '(r, ev2) := send_email env k email country attachments in
        match r with
        | None => (st, ev0 ++ ev1 ++ ev2, KeyboardInterrupt)
        | Some false =>
            let '(ev3, fl) := batch_pause batch_size total st in
            (st, ev0 ++ ev1 ++ ev2 ++ ev3, fl)
        | Some true =>
            let log' :=
              <[country := {| email := email; sent_date := now env k; status := "sent" |}]>
                (sent_log st) in
            let '(disk', evw) := save_sent_log (fs_write env k) log' (disk st) in
            let st' := {| sent_log := log'; disk := disk'; processed := k |} in
            let ev3 :=
              evw ++ [Log INFO ("Successfully sent email to " +:+ country);
                      Log INFO "Waiting 60 seconds before next email...";
                      Sleep 60] in
            let '(ev4, fl) := batch_pause batch_size total st' in
            (st', ev0 ++ ev1 ++ ev2 ++ ev3 ++ ev4, fl)
        end
    end.

(** The [for] loop: it stops at the first turn that raises. *)
Fixpoint loop (env : Env) (batch_size : Z) (attachments : list string) (total : nat)
    (items : list (string * EmailResult)) (st : state) : state * list event * flow :=
  match items with
  | [] => (st, [], Next)
  | item :: rest =>
      let '(st1, ev1, fl) := process_country env batch_size attachments total st item in
      match fl with
      | Next =>
          let '(st2, ev2, fl2) := loop env batch_size attachments total rest st1 in
          (st2, ev1 ++ ev2, fl2)
      | _ => (st1, ev1, fl)
      end
  end.

(** The result of a run: the final variables and file, the events of
    the run, and how the loop ended. *)
Record run := {
  final : state;
  trace : list event;
  ended : flow
}.

Definition process_embassies (env : Env) (data_file : string) (data : file Artifact)
    (batch_size : Z) (attachments : list string) (log_file : file SendLog) : run :=
  let '(embassy_data, evd) := load_embassy_data data_file data in
  let '(sent, evl) := load_sent_log log_file in
  let total_countries := length embassy_data in
  let st0 := {| sent_log := sent; disk := log_file; processed := 0 |} in
  let ev0 :=
    [Log INFO ("Starting to process " +:+ pretty total_countries +:+ " countries...");
     Log INFO ("Already sent to " +:+ pretty (size sent) +:+ " countries")] in
  let '(st, evs, fl) := loop env batch_size attachments total_countries embassy_data st0 in
  let handler :=
    match fl with
    | Next => []
    | KeyboardInterrupt => [Log WARNING "Process interrupted by user. Progress saved."]
    | Exception e => [Log ERROR ("Error occurred: " +:+ e)]
    end in
  let finally :=
    [Log INFO ("Process completed. Processed " +:+ pretty (processed st) +:+ " countries.");
     Log INFO ("Successfully sent emails to " +:+ pretty (size (sent_log st)) +:+ " countries.")] in
  {| final := st; trace := evd ++ evl ++ ev0 ++ evs ++ handler ++ finally; ended := fl |}.

(** *** Reading a trace *)

(** The variables and the file after a delivered message to [c]. *)
Definition sent_state (env : Env) (st : state) (c e : string) : state :=
  let k := S (processed st) in
  let log' :=
    <[c := {| email := e; sent_date := now env k; status := "sent" |}]> (sent_log st) in
  {| sent_log := log';
     disk := (save_sent_log (fs_write env k) log' (disk st)).1;
     processed := k |}.

(** What [batch_pause] does at the [k]-th country, log lines apart. *)
Definition pause_effects (batch_size : Z) (k : nat) : list event :=
  if decide (batch_size = 0%Z) then []
  else if decide ((Z.of_nat k mod batch_size)%Z = 0%Z) then [Sleep 3600] else [].

Definition pause_flow (batch_size : Z) : flow :=
  if decide (batch_size = 0%Z) then Exception "integer modulo by zero" else Next.

(** The messages handed to the relay, as (recipient, country). *)
Definition submits (evs : list event) : list (string * string) :=
  omap (fun ev => match ev with Submit r c _ => Some (r, c) | _ => None end) evs.

(** The pauses taken, in seconds. *)
Definition sleeps (evs : list event) : list Z :=
  omap (fun ev => match ev with Sleep s => Some s | _ => None end) evs.

(** The contents written to the send log file. *)
Definition writes (evs : list event) : list SendLog :=
  omap (fun ev => match ev with WriteLog l => Some l | _ => None end) evs.

(** Everything but the log lines. *)
Definition is_effect (ev : event) : bool :=
  match ev with Log _ _ => false | _ => true end.

Definition effects (evs : list event) : list event := List.filter is_effect evs.

Definition warnings (evs : list event) : list string :=
  omap (fun ev => match ev with Log WARNING m => Some m | _ => None end) evs.

(** The entry [x] of country [c] was made by a run over [items] with
    events [evs]: [c] is a key of the artifact, the entry names the
    first address of [c], a message to that address was handed to the
    relay and went through, and the entry is stamped with that turn. *)
Definition entry_from_run (env : Env) (items : list (string * EmailResult))
    (evs : list event) (c : string) (x : entry) : Prop :=
  exists es k,
    (c, Found (email x :: es)) ∈ items
    /\ smtp env k (email x) c = Delivered
    /\ (email x, c) ∈ submits evs
    /\ x = {| email := email x; sent_date := now env k; status := "sent" |}.

(** The artifact gives the country at least one address. *)
Definition has_email (info : EmailResult) : bool :=
  match info with Found (_ :: _) => true | _ => false end.

(** Every country of the artifact that has an address is in the log. *)
Definition covered (data : Artifact) (log : SendLog) : bool :=
  forallb (fun item => implb (has_email item.2) (bool_decide (is_Some (log !! item.1)))) data.

End Service.

(** ** Sample inputs *)

Module Samples.
Import Scrapper.

Definition anchor (h : string) : node := NTag "a" [] (Some h) [NText "contact"].

Definition container (inner : list node) : node :=
  NTag "div" ["tsg-rwd-text"; contact_class] None [NTag "p" [] None inner].

(** A detail page whose contact container holds [inner]. *)
Definition page (inner : list node) : list node :=
  [NTag "html" [] None
     [NTag "head" [] None [NTag "title" [] None [NText "Consular notification"]];
      NTag "body" [] None
        [NTag "div" ["tsg-rwd-side-menu-frame"] None [anchor "/content/travel/en/a.html"];
         container inner]]].

(** A page without the contact container, with a mailto anchor elsewhere. *)
Definition page_without_container : list node :=
  [NTag "html" [] None
     [NTag "body" [] None [NTag "div" ["footer"] None [anchor "mailto:webmaster@state.gov"]]]].

Definition two_addresses : list node :=
  [anchor "mailto:visa@freedonia.gov "; anchor "https://freedonia.gov";
   anchor "mailto:consul@freedonia.gov"; anchor " mailto:visa@freedonia.gov"].

Definition page_two_addresses : list node := page two_addresses.

(** The container holds one mailto anchor, whose address is empty. *)
Definition page_bare_mailto : list node := page [anchor "mailto:"].

(** The container holds two mailto anchors with nothing but spaces. *)
Definition page_blank_mailtos : list node := page [anchor "mailto: "; anchor " mailto:"].

Definition Freedonia : country :=
  {| name := "Freedonia"; url := "https://travel.state.gov/freedonia.html" |}.
Definition Ruritania : country :=
  {| name := "Ruritania"; url := "https://travel.state.gov/ruritania.html" |}.

(** The first request times out, every later one gets a page. *)
Definition web_first_fails (k : nat) (u : string) : response :=
  match k with
  | O => Raises "HTTPSConnectionPool(host='travel.state.gov', port=443): Read timed out."
  | S _ => Page page_two_addresses
  end.

Definition web_up (k : nat) (u : string) : response := Page page_two_addresses.

End Samples.

Module ServiceSamples.
Import Service.

(** A relay that takes every message, a file system without faults. *)
Definition env_up : Env :=
  {| attach := fun _ => Attached "RefugeeTravelDocument.pdf";
     smtp := fun _ _ _ => Delivered;
     now := fun k => "2024-05-01T10:0" +:+ pretty k +:+ ":00";
     fs_write := fun _ => Written |}.

(** A relay that refuses every connection. *)
Definition env_down : Env :=
  {| attach := fun _ => Attached "RefugeeTravelDocument.pdf";
     smtp := fun _ _ _ => Raised "[Errno 111] Connection refused";
     now := fun k => "2024-05-01T10:0" +:+ pretty k +:+ ":00";
     fs_write := fun _ => Written |}.

Definition data_path : string := "../emailScrapper/embassy_emails.json".
Definition pdf : list string := ["RefugeeTravelDocument.pdf"].

Definition freedonia : string * EmailResult :=
  ("Freedonia", Found ["visa@freedonia.gov"; "consul@freedonia.gov"]).
Definition ruritania : string * EmailResult :=
  ("Ruritania", NotFound "No embassy emails found").
Definition sylvania : string * EmailResult :=
  ("Sylvania", Found ["embassy@sylvania.org"]).

Definition freedonia_entry : entry :=
  {| email := "visa@freedonia.gov"; sent_date := "2024-05-01T10:01:00"; status := "sent" |}.
Definition ruritania_entry : entry :=
  {| email := "info@ruritania.example"; sent_date := "2024-04-02T09:30:00"; status := "sent" |}.

Definition state0 : state :=
  {| sent_log := ∅; disk := Missing; processed := 0 |}.

End ServiceSamples.

(** ** The directory fetcher and the scraper as a whole *)

Module Directory.
Import Scrapper.

Definition base_url : string := "https://travel.state.gov".
Definition main_page : string :=
  "/content/travel/en/consularnotification/ConsularNotificationandAccess.html".
Definition menu_class : string := "tsg-rwd-side-menu-frame".

Definition is_menu_div (n : node) : bool :=
  match n with
  | NTag name classes _ _ => bool_decide (name = "div") && bool_decide (menu_class ∈ classes)
  | NText _ => false
  end.

Definition is_anchor (n : node) : bool :=
  match n with
  | NTag name _ _ _ => bool_decide (name = "a")
  | NText _ => false
  end.

(** The matches of the selector [div.tsg-rwd-side-menu-frame a] at [n]
    and below, in document order, each once.  [inside] tells whether
    some element above [n] is a menu frame. *)
Fixpoint select_below (inside : bool) (n : node) : list node :=
  (if inside && is_anchor n then [n] else []) ++
  match n with
  | NText _ => []
  | NTag _ _ _ cs =>
      (fix go (l : list node) : list node :=
         match l with
         | [] => []
         | c :: l' => select_below (inside || is_menu_div n) c ++ go l'
         end) cs
  end.

(** [soup.select("div.tsg-rwd-side-menu-frame a")] *)
Definition select_menu_links (soup : list node) : list node :=
  flat_map (select_below false) soup.

(** [link.text]: the strings below the element, joined. *)
Fixpoint get_text (n : node) : string :=
  match n with
  | NText s => s
  | NTag _ _ _ cs =>
      (fix go (l : list node) : string :=
         match l with
         | [] => ""
         | c :: l' => get_text c +:+ go l'
         end) cs
  end.

(** [link.get('href')] when it is truthy: an anchor without a link,
    or with an empty one, is passed over. *)
Definition link_href (link : node) : option string :=
  match link with
  | NTag _ _ (Some h) _ => if PyStr.is_empty h then None else Some h
  | _ => None
  end.

Section links.
(** [urllib.parse.urljoin], which the code takes from the library:
    [None] when it raises, as it does with [ValueError] on a link such
    as [http://[]. *)
Variable urljoin : string -> string -> option string.

(** The dict one turn of the loop builds, once the link is joined. *)
Definition country_of (link : node) (h : string) : option country :=
  match urljoin base_url h with
  | Some u => Some {| name := PyStr.strip (get_text link); url := u |}
  | None => None
  end.

(** What the loop makes of one anchor when the turn does not raise. *)
Definition turn_country (link : node) : option country :=
  match link_href link with
  | Some h => country_of link h
  | None => None
  end.

(** [for link in country_links], with the list [countries] built so
    far: [None] when a turn raises. *)
Fixpoint country_loop (links : list node) (countries : list country)
  : option (list country) :=
  match links with
  | [] => Some countries
  | link :: rest =>
      match link_href link with
      | None => country_loop rest countries
      | Some h =>
          match country_of link h with
          | Some c => country_loop rest (countries ++ [c])
          | None => None
          end
      end
  end.

(** [directory] is what the request for the directory page gives.  The
    loop runs inside the [try]: when a turn raises, the countries found
    so far are dropped and the empty list is returned. *)
Definition get_country_links (directory : response) : list country :=
  match directory with
  | Raises _ => []
  | Page soup =>
      match country_loop (select_menu_links soup) [] with
      | Some countries => countries
      | None => []
      end
  end.

(** The script: [EmbassyScraper().scrape_all_countries()]. *)
Definition scrape_site (directory : response) (web : nat -> string -> response) : scraper :=
  scrape_all_countries web (get_country_links directory) EmbassyScraper.
End links.

(** *** Reading the scraper's trace *)

Definition gets (evs : list event) : list string :=
  omap (fun ev => match ev with Get u => Some u | _ => None end) evs.

Definition pauses (evs : list event) : list Z :=
  omap (fun ev => match ev with Sleep s => Some s | _ => None end) evs.

Definition dumps (evs : list event) : list (string * list (string * EmailResult)) :=
  omap (fun ev => match ev with Dump p d => Some (p, d) | _ => None end) evs.

(** What the [k]-th request stores for a country. *)
Definition stored (web : nat -> string -> response) (k : nat) (c : country) : EmailResult :=
  match web k (url c) with
  | Page soup => extract_embassy_emails soup
  | Raises e => NotFound e
  end.

Definition fetch_ok (r : response) : bool :=
  match r with Page _ => true | Raises _ => false end.

End Directory.

(** ** The entry point of emailService/main.py *)

Module Entry.
Import Service.

(** [s.endswith("/")] *)
Fixpoint ends_with_slash (s : string) : bool :=
  match s with
  | EmptyString => false
  | String c EmptyString => Ascii.eqb c "/"
  | String _ s' => ends_with_slash s'
  end.

(** [os.path.join(a, b)] of [posixpath]. *)
Definition path_join (a b : string) : string :=
  if PyStr.startswith "/" b then b
  else if PyStr.is_empty a || ends_with_slash a then a +:+ b
  else a +:+ "/" +:+ b.

(** The truth value of what [os.getenv] returns. *)
Definition is_set (v : option string) : bool :=
  match v with
  | Some s => negb (PyStr.is_empty s)
  | None => false
  end.

(** [EmbassyEmailer()]: the credentials, or the [ValueError]. *)
Definition EmbassyEmailer (email_user email_password : option string)
  : string + (option string * option string) :=
  if negb (is_set email_user) || negb (is_set email_password)
  then inl "EMAIL_USER and EMAIL_PASSWORD environment variables must be set!"
  else inr (email_user, email_password).

Definition exists_on_disk {A} (f : file A) : bool :=
  match f with Missing => false | _ => true end.

(** What the process leaves: its exit status, what it printed, and the
    send job if it got that far. *)
Record outcome := {
  exit_code : Z;
  stdout : list string;
  job : option run
}.

(** The [if __name__ == "__main__"] block.  [exit(1)] raises
    [SystemExit], which the [except Exception] at the end lets pass. *)
Definition main (env : Env) (email_user email_password : option string)
    (current_dir : string) (embassy_file : file Artifact) (pdf_exists : bool)
    (log_file : file SendLog) : outcome :=
  let hello := "Starting Embassy Email Service..." in
  match EmbassyEmailer email_user email_password with
  | inl e => {| exit_code := 0; stdout := [hello; "Critical error: " +:+ e]; job := None |}
  | inr _ =>
      let scraper_dir := path_join (path_join current_dir "..") "emailScrapper" in
      let embassy_path := path_join scraper_dir "embassy_emails.json" in
      if negb (exists_on_disk embassy_file) then
        {| exit_code := 1; stdout := [hello; "Error: " +:+ embassy_path +:+ " not found!"];
           job := None |}
      else
        let pdf_path := path_join current_dir "RefugeeTravelDocument.pdf" in
        if negb pdf_exists then
          {| exit_code := 1; stdout := [hello; "Error: " +:+ pdf_path +:+ " not found!"];
             job := None |}
        else
          {| exit_code := 0; stdout := [hello];
             job := Some (process_embassies env embassy_path embassy_file 10 [pdf_path]
                            log_file) |}
  end.

(** The messages a process handed to the relay. *)
Definition submitted (o : outcome) : list (string * string) :=
  match job o with
  | Some r => submits (trace r)
  | None => []
  end.

End Entry.

(** ** More readings of the sender's trace *)

Module Readings.
Import Service.

(** The message the loop sends for an artifact entry, if any. *)
Definition first_address (item : string * EmailResult) : option (string * string) :=
  match item.2 with
  | Found (e :: _) => Some (e, item.1)
  | _ => None
  end.

(** The attachment names [add_attachment] manages to attach. *)
Definition attachable (env : Env) (attachments : list string) : list string :=
  omap (fun p => match attach env p with Attached n => Some n | _ => None end) attachments.

(** The attachment paths [add_attachment] gives up on. *)
Definition left_out (env : Env) (attachments : list string) : list string :=
  List.filter (fun p => match attach env p with Attached _ => false | _ => true end)
    attachments.

Definition attached_of (evs : list event) : list (list string) :=
  omap (fun ev => match ev with Submit _ _ names => Some names | _ => None end) evs.

End Readings.

(** ** More sample inputs *)

Module MoreSamples.
Import Scrapper Samples Directory.

(** A stand-in for [urljoin] on the links of the directory page, which
    are absolute paths; it raises on a link that opens an address in
    brackets and does not close it. *)
Definition join_abs (base link : string) : option string :=
  if PyStr.startswith "http://[" link then None else Some (base +:+ link).

Definition menu_link (h text : string) : node :=
  NTag "li" [] None [NTag "a" [] (Some h) [NText "  "; NTag "span" [] None [NText text]; NText " "]].

Definition directory_page : list node :=
  [NTag "html" [] None
     [NTag "body" [] None
        [NTag "a" [] (Some "/home.html") [NText "Home"];
         NTag "div" ["tsg-rwd-side-menu-frame"] None
           [NTag "ul" [] None
              [menu_link "/freedonia.html" "Freedonia";
               NTag "li" [] None [NTag "a" [] None [NText "Countries"]];
               menu_link "/ruritania.html" "Ruritania";
               menu_link "/freedonia.html" "Freedonia"]]]]].

(** The same menu with one link that [urljoin] does not take. *)
Definition directory_page_bad_link : list node :=
  [NTag "div" ["tsg-rwd-side-menu-frame"] None
     [menu_link "/freedonia.html" "Freedonia";
      menu_link "http://[" "Nowhere";
      menu_link "/ruritania.html" "Ruritania"]].

End MoreSamples.

Module MoreServiceSamples.
Import Service ServiceSamples.

(** The user interrupts the second send of the run. *)
Definition env_cut : Env :=
  {| attach := fun _ => NoSuchFile;
     smtp := fun k _ _ => match k with 2 => Interrupted | _ => Delivered end;
     now := fun k => "2024-05-01T10:0" +:+ pretty k +:+ ":00";
     fs_write := fun _ => Written |}.

Definition artifact3 : Artifact := [freedonia; sylvania; ruritania].

(** A full disk: every write of the log raises and leaves the file as
    it was. *)
Definition env_disk_full : Env :=
  {| attach := fun _ => Attached "RefugeeTravelDocument.pdf";
     smtp := fun _ _ _ => Delivered;
     now := fun k => "2024-05-01T10:0" +:+ pretty k +:+ ":00";
     fs_write := fun _ => WriteRaised "[Errno 28] No space left on device" None |}.

(** The disk fills up during the second write of the run, which
    leaves the file cut short. *)
Definition env_cut_short : Env :=
  {| attach := fun _ => Attached "RefugeeTravelDocument.pdf";
     smtp := fun _ _ _ => Delivered;
     now := fun k => "2024-05-01T10:0" +:+ pretty k +:+ ":00";
     fs_write := fun k =>
       match k with
       | 2 => WriteRaised "[Errno 28] No space left on device"
                (Some "Expecting value: line 1 column 1 (char 0)")
       | _ => Written
       end |}.

(** A run of the next day, without faults. *)
Definition env_next_day : Env :=
  {| attach := fun _ => Attached "RefugeeTravelDocument.pdf";
     smtp := fun _ _ _ => Delivered;
     now := fun k => "2024-05-02T09:0" +:+ pretty k +:+ ":00";
     fs_write := fun _ => Written |}.

Definition freedonia_entry_next_day : entry :=
  {| email := "visa@freedonia.gov"; sent_date := "2024-05-02T09:01:00"; status := "sent" |}.

Definition two_countries : Artifact := [freedonia; sylvania].

End MoreServiceSamples.

(** ** Facts about emailScrapper/scrapper.py *)

Module ScrapperFacts.
Import Scrapper Samples.

Lemma is_empty_true s : PyStr.is_empty s = true <-> s = "".
Proof. destruct s; simpl; split; congruence. Qed.

Lemma is_empty_false s : PyStr.is_empty s = false <-> s <> "".
Proof. destruct s; simpl; split; congruence. Qed.

(** The loop of the extractor, started from any list of addresses
    already collected. *)
Lemma fold_collect hrefs : forall acc,
  fold_left collect hrefs acc
  = acc ++ filter (fun x => x ∉ acc)
             (dedup_first (filter (fun e => e <> "") (clean <$> hrefs))).
Proof.
  induction hrefs as [|h hs IH]; intros acc.
  - simpl. by rewrite app_nil_r.
  - cbn [fold_left]. rewrite IH, fmap_cons, filter_cons. unfold collect.
    destruct (PyStr.is_empty (clean h)) eqn:E; cbn [negb andb].
    + apply is_empty_true in E. by case_decide.
    + apply is_empty_false in E. case_decide; [|done].
      cbn [dedup_first]. rewrite filter_cons.
      case_bool_decide as D; cbn [negb]; case_decide; try done.
      * f_equal. rewrite list_filter_filter. apply list_filter_iff.
        intros x; cbn beta. intuition congruence.
      * rewrite <- app_assoc. simpl. do 2 f_equal.
        rewrite list_filter_filter. apply list_filter_iff.
        intros x; cbn beta. rewrite elem_of_app, list_elem_of_singleton. intuition congruence.
Qed.

Lemma filter_not_in_nil (l : list string) : filter (fun x => x ∉ []) l = l.
Proof.
  induction l as [|x l IH]; [done|].
  rewrite filter_cons. case_decide as H; [by rewrite IH|].
  exfalso. set_solver.
Qed.

Lemma fold_collect_nil hrefs :
  fold_left collect hrefs [] = dedup_first (filter (fun e => e <> "") (clean <$> hrefs)).
Proof. rewrite fold_collect. simpl. apply filter_not_in_nil. Qed.

(** [dedup_first] keeps exactly the elements of the list, once each,
    in the order of the list. *)
Lemma elem_of_dedup_first l x : x ∈ dedup_first l <-> x ∈ l.
Proof.
  induction l as [|y l IH]; simpl; [done|].
  rewrite !elem_of_cons, list_elem_of_filter, IH.
  destruct (decide (x = y)); intuition congruence.
Qed.

Lemma NoDup_dedup_first l : NoDup (dedup_first l).
Proof.
  induction l as [|y l IH]; simpl; [constructor|].
  constructor; [|by apply NoDup_filter].
  rewrite list_elem_of_filter. intros [H _]. by apply H.
Qed.

Lemma sublist_dedup_first l : sublist (dedup_first l) l.
Proof.
  induction l as [|y l IH]; simpl; [constructor|].
  constructor. etrans; [apply sublist_filter|done].
Qed.

Lemma dedup_first_nil l : dedup_first l = [] <-> l = [].
Proof. destruct l; simpl; split; congruence. Qed.

Lemma dedup_first_head x l : head (dedup_first (x :: l)) = Some x.
Proof. done. Qed.

(** First-seen order: an element met for the first time after [l1]
    comes right after what [l1] contributes, and before everything
    that is new in the rest of the list. *)
Lemma dedup_first_app_fresh l1 x l2 :
  x ∉ l1 ->
  dedup_first (l1 ++ x :: l2)
  = dedup_first l1 ++ x :: filter (fun y => (y ∉ l1) /\ y <> x) (dedup_first l2).
Proof.
  induction l1 as [|z l1 IH]; intros Hx; simpl.
  - f_equal. apply list_filter_iff. intros y; cbn beta.
    split; [intros ?; split; [apply not_elem_of_nil|done] | by intros [_ ?]].
  - apply not_elem_of_cons in Hx as [Hxz Hx].
    rewrite IH by done. rewrite filter_app, filter_cons.
    case_decide; [|done]. do 3 f_equal.
    rewrite list_filter_filter. apply list_filter_iff. intros y; cbn beta.
    rewrite not_elem_of_cons. intuition congruence.
Qed.


(** *** [replace] and [strip] on a link of the form [mailto:ADDRESS] *)

Lemma startswith_app p s : PyStr.startswith p (p +:+ s) = true.
Proof. induction p as [|a p IH]; simpl; [done|]. by rewrite Ascii.eqb_refl. Qed.

Lemma remove_from_skip old p s :
  PyStr.remove_from old (p +:+ s) (String.length p) = PyStr.remove_from old s 0.
Proof.
  induction p as [|a p IH]; simpl; [done|]. apply IH.
Qed.

Lemma remove_all_absent old s :
  PyStr.contains old s = false -> PyStr.remove_all old s = s.
Proof.
  unfold PyStr.remove_all. induction s as [|c s IH]; [done|].
  cbn [PyStr.contains PyStr.remove_from]. intros H.
  apply orb_false_iff in H as [H1 H2]. rewrite H1. f_equal. by apply IH.
Qed.

Lemma remove_all_prefix a old s :
  PyStr.remove_all (String a old) (String a old +:+ s)
  = PyStr.remove_all (String a old) s.
Proof.
  unfold PyStr.remove_all.
  pose proof (startswith_app (String a old) s) as H.
  pose proof (remove_from_skip (String a old) old s) as K.
  change (String a old +:+ s) with (String a (old +:+ s)) in *.
  cbn [PyStr.remove_from]. rewrite H.
  replace (String.length (String a old) - 1) with (String.length old) by (simpl; lia).
  exact K.
Qed.

(** On [mailto:ADDRESS] where [ADDRESS] has no further [mailto:],
    cleaning is stripping the scheme prefix and the white space. *)
Lemma clean_mailto_prefix addr :
  PyStr.contains "mailto:" addr = false ->
  clean ("mailto:" +:+ addr) = PyStr.strip addr.
Proof.
  intros H. unfold clean. rewrite remove_all_prefix. by rewrite remove_all_absent.
Qed.

(** *** The contact container *)

Lemma find_contact_div_None soup :
  find_contact_div soup = None <->
  forall n, n ∈ soup_nodes soup -> is_contact_div n = false.
Proof.
  unfold find_contact_div. split.
  - intros H n Hn. apply list_elem_of_In in Hn. by eapply find_none in H.
  - intros H. destruct (List.find _ _) as [n|] eqn:E; [|done].
    apply find_some in E as [E1 E2]. apply list_elem_of_In, H in E1. congruence.
Qed.

Lemma find_contact_div_Some soup div :
  find_contact_div soup = Some div ->
  div ∈ soup_nodes soup /\ is_contact_div div = true.
Proof.
  unfold find_contact_div. intros H. apply find_some in H as [H1 H2].
  by apply list_elem_of_In in H1.
Qed.

Lemma no_links_no_addresses div : email_links div = [] -> addresses div = [].
Proof. unfold addresses. by intros ->. Qed.

(** The extractor on a page that has the container. *)
Lemma extract_with_container soup div :
  find_contact_div soup = Some div ->
  extract_embassy_emails soup =
    match addresses div with
    | [] => NotFound "No embassy emails found"
    | _ :: _ => Found (dedup_first (addresses div))
    end.
Proof.
  intros H. unfold extract_embassy_emails. rewrite H, fold_collect_nil.
  fold (addresses div). by destruct (addresses div).
Qed.

(** *** The scrape loop *)

Lemma scrape_country_page web self c soup :
  web (requests self) (url c) = Page soup ->
  scrape_country web self c =
    {| embassy_data := pydict_set (name c) (extract_embassy_emails soup) (embassy_data self);
       requests := S (requests self);
       out := out self ++ [Get (url c); Sleep 2] |}.
Proof. intros H. unfold scrape_country. by rewrite H. Qed.

Lemma scrape_country_raises web self c e :
  web (requests self) (url c) = Raises e ->
  scrape_country web self c =
    {| embassy_data := pydict_set (name c) (NotFound e) (embassy_data self);
       requests := S (requests self);
       out := out self ++ [Get (url c)] |}.
Proof. intros H. unfold scrape_country. by rewrite H. Qed.

Lemma pydict_get_set {V} k (v : V) d : pydict_get k (pydict_set k v d) = Some v.
Proof.
  induction d as [|[k' v'] d IH]; simpl.
  - by rewrite decide_True.
  - destruct (decide (k' = k)); simpl.
    + by rewrite decide_True.
    + by rewrite decide_False.
Qed.


(** *** The claims about the extractor and the scrape loop *)

(** C2, as stated, fails: the contact container of this page holds an
    anchor with a mailto link, and the extractor does not return
    [Found]. *)
Lemma C2_counterexample :
  find_contact_div page_bare_mailto = Some (container [anchor "mailto:"])
  /\ email_links (container [anchor "mailto:"]) = ["mailto:"]
  /\ extract_embassy_emails page_bare_mailto = NotFound "No embassy emails found".
Proof. repeat split; reflexivity. Qed.

(** C2 (amended).  For every detail page whose contact container
    holds at least one anchor with a mailto link whose address is not
    empty once every [mailto:] and the surrounding white space are
    removed, the extractor returns [Found] with exactly those
    non-empty addresses, deduplicated, in first-seen order. *)
Theorem C2_found_addresses (soup : list node) (div : node) :
  find_contact_div soup = Some div ->
  addresses div <> [] ->
  extract_embassy_emails soup = Found (dedup_first (addresses div))
  /\ NoDup (dedup_first (addresses div))
  /\ (forall x, x ∈ dedup_first (addresses div) <-> x ∈ addresses div)
  /\ sublist (dedup_first (addresses div)) (addresses div).
Proof.
  intros Hdiv Hne. split; [|split; [|split]].
  - rewrite (extract_with_container _ _ Hdiv). by destruct (addresses div).
  - apply NoDup_dedup_first.
  - intros x. apply elem_of_dedup_first.
  - apply sublist_dedup_first.
Qed.

Lemma C2_found_addresses_witness :
  find_contact_div page_two_addresses = Some (container two_addresses)
  /\ addresses (container two_addresses) <> []
  /\ extract_embassy_emails page_two_addresses
     = Found ["visa@freedonia.gov"; "consul@freedonia.gov"].
Proof.
  assert (H1 : find_contact_div page_two_addresses = Some (container two_addresses))
    by reflexivity.
  assert (H2 : addresses (container two_addresses) <> []) by (vm_compute; discriminate).
  split; [exact H1|]. split; [exact H2|].
  exact (proj1 (C2_found_addresses page_two_addresses (container two_addresses) H1 H2)).
Defined.

(** C6, as stated, fails: this page has the contact container, the
    container holds two mailto links, and the extractor returns
    [NotFound]. *)
Lemma C6_counterexample :
  find_contact_div page_blank_mailtos
    = Some (container [anchor "mailto: "; anchor " mailto:"])
  /\ email_links (container [anchor "mailto: "; anchor " mailto:"])
     = ["mailto: "; " mailto:"]
  /\ extract_embassy_emails page_blank_mailtos = NotFound "No embassy emails found".
Proof. repeat split; reflexivity. Qed.

(** C6 (amended).  The extractor returns [NotFound] in exactly two
    cases: "Contact section not found" when the page has no contact
    container, whatever else it holds, and "No embassy emails found"
    when the container yields no non-empty address (it has no mailto
    link, or every mailto link is empty once cleaned); in every other
    case it returns [Found]. *)
Theorem C6_extract_cases (soup : list node) :
  extract_embassy_emails soup =
    match find_contact_div soup with
    | None => NotFound "Contact section not found"
    | Some div =>
        match addresses div with
        | [] => NotFound "No embassy emails found"
        | _ :: _ => Found (dedup_first (addresses div))
        end
    end.
Proof.
  destruct (find_contact_div soup) as [div|] eqn:E.
  - by apply extract_with_container.
  - unfold extract_embassy_emails. by rewrite E.
Qed.

Example extract_without_container :
  extract_embassy_emails page_without_container = NotFound "Contact section not found".
Proof. reflexivity. Qed.

Example extract_no_links :
  extract_embassy_emails (page [anchor "https://freedonia.gov"])
  = NotFound "No embassy emails found".
Proof. reflexivity. Qed.

(** C8: after a fetch that fails the scraper goes straight to the next
    country.  The first of two requests times out: the error is stored
    for that country, the run goes on, and the only pause of the run
    comes after the second, successful, request. *)
Theorem C8_failed_fetch_skips_delay :
  let r := scrape_all_countries web_first_fails [Freedonia; Ruritania] EmbassyScraper in
  embassy_data r
    = [("Freedonia",
        NotFound "HTTPSConnectionPool(host='travel.state.gov', port=443): Read timed out.");
       ("Ruritania", Found ["visa@freedonia.gov"; "consul@freedonia.gov"])]
  /\ out r
     = [Get (url Freedonia); Get (url Ruritania); Sleep 2;
        Dump "embassy_emails.json" (embassy_data r)].
Proof. split; reflexivity. Qed.

(** With both fetches successful the pause follows each of them. *)
Example scrape_two_pages :
  out (scrape_all_countries web_up [Freedonia; Ruritania] EmbassyScraper)
  = [Get (url Freedonia); Sleep 2; Get (url Ruritania); Sleep 2;
     Dump "embassy_emails.json"
       [("Freedonia", Found ["visa@freedonia.gov"; "consul@freedonia.gov"]);
        ("Ruritania", Found ["visa@freedonia.gov"; "consul@freedonia.gov"])]].
Proof. reflexivity. Qed.

End ScrapperFacts.

(** ** Facts about emailService/main.py *)

Module ServiceFacts.
Import Service ServiceSamples.

(** *** Reading traces *)

Lemma effects_app evs1 evs2 : effects (evs1 ++ evs2) = effects evs1 ++ effects evs2.
Proof. apply List.filter_app. Qed.

Lemma submits_effects evs : submits (effects evs) = submits evs.
Proof. induction evs as [|[] evs IH]; simpl; congruence. Qed.

Lemma writes_effects evs : writes (effects evs) = writes evs.
Proof. induction evs as [|[] evs IH]; simpl; congruence. Qed.

Lemma sleeps_effects evs : sleeps (effects evs) = sleeps evs.
Proof. induction evs as [|[] evs IH]; simpl; congruence. Qed.

Lemma submits_app evs1 evs2 : submits (evs1 ++ evs2) = submits evs1 ++ submits evs2.
Proof. apply omap_app. Qed.

Lemma writes_app evs1 evs2 : writes (evs1 ++ evs2) = writes evs1 ++ writes evs2.
Proof. apply omap_app. Qed.

Lemma add_attachment_effects r p : effects (add_attachment r p).2 = [].
Proof. by destruct r. Qed.

Lemma add_attachments_effects env atts : effects (add_attachments env atts).2 = [].
Proof.
  induction atts as [|p ps IH]; [done|]. cbn [add_attachments].
  pose proof (add_attachment_effects (attach env p) p) as H.
  destruct (add_attachment (attach env p) p) as [r ev].
  destruct (add_attachments env ps) as [names evs].
  cbn [snd] in *. destruct r; cbn [snd]; rewrite !effects_app, ?H, ?IH; done.
Qed.

(** The effects of [send_email]: one message handed to the relay. *)
Lemma send_email_effects env k r c atts :
  effects (send_email env k r c atts).2 = [Submit r c (add_attachments env atts).1].
Proof.
  unfold send_email. pose proof (add_attachments_effects env atts) as H.
  destruct (add_attachments env atts) as [names evs]. cbn [fst snd] in *.
  destruct (smtp env k r c); cbn [snd]; by rewrite effects_app, H.
Qed.

Lemma send_email_result env k r c atts :
  (send_email env k r c atts).1 =
    match smtp env k r c with
    | Delivered => Some true
    | Raised _ => Some false
    | Interrupted => None
    end.
Proof.
  unfold send_email. destruct (add_attachments env atts) as [names evs].
  by destruct (smtp env k r c).
Qed.

Lemma batch_pause_effects bs total st :
  effects (batch_pause bs total st).1 = pause_effects bs (processed st).
Proof. unfold batch_pause, pause_effects. by repeat case_decide. Qed.

Lemma batch_pause_flow bs total st : (batch_pause bs total st).2 = pause_flow bs.
Proof. unfold batch_pause, pause_flow. by repeat case_decide. Qed.

(** *** One turn of the loop, case by case *)

Section step.
Variables (env : Env) (bs : Z) (atts : list string) (total : nat).

Lemma step_already_sent st c info :
  is_Some (sent_log st !! c) ->
  process_country env bs atts total st (c, info)
  = (bump st,
     [Log INFO ("Processing country " +:+ pretty (S (processed st)) +:+ "/"
                +:+ pretty total +:+ ": " +:+ c);
      Log INFO ("Skipping " +:+ c +:+ " - already contacted")],
     Next).
Proof. intros H. unfold process_country. cbn [bump sent_log processed]. by rewrite decide_True. Qed.

Lemma step_no_email st c info :
  sent_log st !! c = None ->
  has_email info = false ->
  process_country env bs atts total st (c, info)
  = (bump st,
     [Log INFO ("Processing country " +:+ pretty (S (processed st)) +:+ "/"
                +:+ pretty total +:+ ": " +:+ c);
      Log WARNING ("No email found for " +:+ c)],
     Next).
Proof.
  intros H Hinfo. unfold process_country. cbn [bump sent_log processed].
  rewrite decide_False by (rewrite H; apply is_Some_None).
  by destruct info as [[|]|].
Qed.

Lemma save_sent_log_effects w l f : effects (save_sent_log w l f).2 = [WriteLog l].
Proof. by destruct w. Qed.

Lemma step_attempt st c e es :
  sent_log st !! c = None ->
  let r := process_country env bs atts total st (c, Found (e :: es)) in
  let submit := Submit e c (add_attachments env atts).1 in
  match smtp env (S (processed st)) e c with
  | Delivered =>
      r.1.1 = sent_state env st c e
      /\ effects r.1.2
         = [submit; WriteLog (sent_log (sent_state env st c e)); Sleep 60]
           ++ pause_effects bs (S (processed st))
      /\ r.2 = pause_flow bs
  | Raised _ =>
      r.1.1 = bump st
      /\ effects r.1.2 = submit :: pause_effects bs (S (processed st))
      /\ r.2 = pause_flow bs
  | Interrupted =>
      r.1.1 = bump st /\ effects r.1.2 = [submit] /\ r.2 = KeyboardInterrupt
  end.
Proof.
  intros H. cbn zeta. unfold process_country. cbn [bump sent_log processed disk].
  rewrite decide_False by (rewrite H; apply is_Some_None).
  pose proof (send_email_effects env (S (processed st)) e c atts) as He.
  pose proof (send_email_result env (S (processed st)) e c atts) as Hr.
  destruct (send_email env (S (processed st)) e c atts) as [r ev2].
  cbn [fst snd] in He, Hr.
  destruct (smtp env (S (processed st)) e c) eqn:Hs; subst r.
  - set (log' := <[c := _]> (sent_log st)).
    pose proof (save_sent_log_effects (fs_write env (S (processed st))) log' (disk st)) as Hw.
    unfold sent_state. fold log'.
    destruct (save_sent_log (fs_write env (S (processed st))) log' (disk st)) as [d evw].
    cbn [fst snd] in Hw.
    match goal with |- context [batch_pause bs total ?s] =>
      pose proof (batch_pause_effects bs total s) as Hp;
      pose proof (batch_pause_flow bs total s) as Hf;
      destruct (batch_pause bs total s) as [ev4 fl] end.
    cbn [fst snd processed] in *. subst fl.
    split; [done|]. split; [|done].
    rewrite !effects_app, He, Hw, Hp. done.
  - match goal with |- context [batch_pause bs total ?s] =>
      pose proof (batch_pause_effects bs total s) as Hp;
      pose proof (batch_pause_flow bs total s) as Hf;
      destruct (batch_pause bs total s) as [ev4 fl] end.
    cbn [fst snd processed] in *. subst fl.
    split; [done|]. split; [|done].
    rewrite !effects_app, He, Hp. done.
  - cbn [fst snd]. split; [done|]. split; [|done].
    rewrite !effects_app, He. done.
Qed.
End step.

Section loop.
Variables (env : Env) (bs : Z) (atts : list string) (total : nat).

Lemma loop_nil st : loop env bs atts total [] st = (st, [], Next).
Proof. done. Qed.

Lemma loop_cons item rest st :
  loop env bs atts total (item :: rest) st =
    let s := process_country env bs atts total st item in
    match s.2 with
    | Next =>
        let r := loop env bs atts total rest s.1.1 in
        (r.1.1, s.1.2 ++ r.1.2, r.2)
    | _ => s
    end.
Proof.
  cbn [loop]. destruct (process_country env bs atts total st item) as [[st1 ev1] fl].
  cbn [fst snd]. destruct fl; try done.
  by destruct (loop env bs atts total rest st1) as [[st2 ev2] fl2].
Qed.

(** A country that is in the log or has no address: nothing happens. *)
Lemma step_skip st c info :
  implb (has_email info) (bool_decide (is_Some (sent_log st !! c))) = true ->
  let s := process_country env bs atts total st (c, info) in
  s.1.1 = bump st /\ effects s.1.2 = [] /\ s.2 = Next.
Proof.
  intros H. cbn zeta. destruct (decide (is_Some (sent_log st !! c))) as [Hs|Hs].
  - by rewrite step_already_sent.
  - rewrite bool_decide_eq_false_2 in H by done.
    destruct (has_email info) eqn:Hi; [done|].
    rewrite step_no_email; [done| |done]. by apply eq_None_not_Some.
Qed.

Lemma loop_covered items : forall st,
  covered items (sent_log st) = true ->
  let r := loop env bs atts total items st in
  sent_log r.1.1 = sent_log st /\ disk r.1.1 = disk st
  /\ processed r.1.1 = processed st + length items
  /\ effects r.1.2 = [] /\ r.2 = Next.
Proof.
  induction items as [|[c info] rest IH]; intros st Hc; cbn zeta.
  - rewrite loop_nil. cbn. repeat split; try done; lia.
  - cbn [covered forallb fst snd] in Hc. apply andb_true_iff in Hc as [Hc1 Hc2].
    rewrite loop_cons. cbn zeta.
    destruct (step_skip st c info Hc1) as (H1 & H2 & H3).
    rewrite H3, H1. cbn [fst snd].
    destruct (IH (bump st) Hc2) as (K1 & K2 & K3 & K4 & K5).
    rewrite effects_app, H2, K4, K1, K2, K3, K5. cbn. repeat split; try done; lia.
Qed.

(** What one turn does to the log and the file. *)
Lemma step_log st c info :
  let s := process_country env bs atts total st (c, info) in
  (s.1.1 = bump st /\ writes s.1.2 = [])
  \/ (exists e es,
         info = Found (e :: es) /\ sent_log st !! c = None
         /\ smtp env (S (processed st)) e c = Delivered
         /\ s.1.1 = sent_state env st c e
         /\ writes s.1.2 = [sent_log (sent_state env st c e)]
         /\ (e, c) ∈ submits s.1.2
         /\ s.2 = pause_flow bs).
Proof.
  cbn zeta.
  destruct (decide (is_Some (sent_log st !! c))) as [Hs|Hs].
  { left. by rewrite step_already_sent. }
  apply eq_None_not_Some in Hs.
  destruct (has_email info) eqn:Hi.
  2:{ left. by rewrite step_no_email. }
  destruct info as [[|e es]|]; try done.
  pose proof (step_attempt env bs atts total st c e es Hs) as H. cbn zeta in H.
  destruct (smtp env (S (processed st)) e c) eqn:Hd.
  - right. exists e, es. destruct H as (H1 & H2 & H3).
    rewrite <- writes_effects, <- submits_effects, H2.
    repeat split; try done.
    + cbn. unfold pause_effects. by repeat case_decide.
    + cbn. apply elem_of_cons. by left.
  - left. destruct H as (H1 & H2 & H3). split; [done|].
    rewrite <- writes_effects, H2. cbn. unfold pause_effects. by repeat case_decide.
  - left. destruct H as (H1 & H2 & H3). split; [done|].
    by rewrite <- writes_effects, H2.
Qed.

Lemma sent_state_log st c e :
  sent_log (sent_state env st c e)
  = <[c := {| email := e; sent_date := now env (S (processed st)); status := "sent" |}]>
      (sent_log st).
Proof. done. Qed.

(** Entries are only ever added, every content written to the file
    lies between the log at the start and the log at the end, and
    every entry added comes from a delivered message of the run. *)
Lemma loop_invariant items : forall st,
  let r := loop env bs atts total items st in
  sent_log st ⊆ sent_log r.1.1
  /\ Forall (fun L => sent_log st ⊆ L /\ L ⊆ sent_log r.1.1) (writes r.1.2)
  /\ (forall c x, sent_log r.1.1 !! c = Some x -> sent_log st !! c = None ->
        entry_from_run env items r.1.2 c x).
Proof.
  induction items as [|[c info] rest IH]; intros st; cbn zeta.
  { rewrite loop_nil. cbn [fst snd]. split; [done|]. split; [constructor|].
    intros c x H1 H2. congruence. }
  rewrite loop_cons. cbn zeta.
  pose proof (step_log st c info) as Hstep. cbn zeta in Hstep.
  set (s := process_country env bs atts total st (c, info)) in *.
  assert (Hs : sent_log st ⊆ sent_log s.1.1
               /\ Forall (fun L => sent_log st ⊆ L /\ L ⊆ sent_log s.1.1) (writes s.1.2)
               /\ (forall c' x, sent_log s.1.1 !! c' = Some x -> sent_log st !! c' = None ->
                     entry_from_run env ((c, info) :: rest) s.1.2 c' x)).
  { destruct Hstep as [[H1 H2]|(e & es & Hi & Hn & Hd & H1 & H2 & H3 & H4)].
    - rewrite H1, H2. cbn [bump sent_log]. split; [done|]. split; [constructor|].
      intros c' x K1 K2. congruence.
    - rewrite H1, H2, sent_state_log.
      split; [by apply insert_subseteq|]. split.
      + constructor; [|constructor]. split; [by apply insert_subseteq|done].
      + intros c' x K1 K2. destruct (decide (c = c')) as [->|Hne].
        * rewrite lookup_insert_eq in K1. injection K1 as <-.
          exists es, (S (processed st)). cbn [email]. subst info.
          repeat split; try done. apply elem_of_cons. by left.
        * rewrite lookup_insert_ne in K1 by done. congruence. }
  destruct Hs as (Hs1 & Hs2 & Hs3).
  destruct (s.2) eqn:Hfl; try done.
  specialize (IH s.1.1). cbn zeta in IH.
  set (r := loop env bs atts total rest s.1.1) in *.
  destruct IH as (I1 & I2 & I3). cbn [fst snd].
  split; [by etrans|]. split.
  - rewrite writes_app. apply Forall_app. split.
    + eapply Forall_impl; [exact Hs2|]. intros L [? ?]. split; [done|by etrans].
    + eapply Forall_impl; [exact I2|]. intros L [? ?]. split; [by etrans|done].
  - intros c' x K1 K2.
    destruct (sent_log s.1.1 !! c') as [y|] eqn:Ey.
    + assert (x = y) as ->.
      { eapply lookup_weaken in Ey; [|exact I1]. congruence. }
      destruct (Hs3 c' y Ey K2) as (es & k & J1 & J2 & J3 & J4).
      exists es, k. repeat split; try done.
      rewrite submits_app, elem_of_app. by left.
    + destruct (I3 c' x K1 Ey) as (es & k & J1 & J2 & J3 & J4).
      exists es, k. repeat split; try done.
      * apply elem_of_cons. by right.
      * rewrite submits_app, elem_of_app. by right.
Qed.

Lemma covered_weaken items (l1 l2 : gmap string entry) :
  l1 ⊆ l2 -> covered items l1 = true -> covered items l2 = true.
Proof.
  intros Hsub. unfold covered. rewrite !forallb_forall. intros H item Hin.
  specialize (H item Hin). destruct (has_email item.2); [|done].
  cbn [implb] in *. apply bool_decide_eq_true in H. apply bool_decide_eq_true.
  destruct H as [x Hx]. exists x. by eapply lookup_weaken.
Qed.

(** When the relay takes every message and the batch size is not
    zero, the loop runs to its end and leaves no country that has an
    address out of the log. *)
Lemma loop_complete items : forall st,
  (forall k r c, smtp env k r c = Delivered) ->
  bs <> 0%Z ->
  let r := loop env bs atts total items st in
  r.2 = Next /\ covered items (sent_log r.1.1) = true.
Proof.
  intros st Hd Hbs. revert st.
  induction items as [|[c info] rest IH]; intros st; cbn zeta; [done|].
  rewrite loop_cons. cbn zeta.
  pose proof (step_log st c info) as Hstep. cbn zeta in Hstep.
  pose proof (step_skip st c info) as Hskip. cbn zeta in Hskip.
  pose proof (loop_invariant rest) as Hinv.
  set (s := process_country env bs atts total st (c, info)) in *.
  assert (Hs : s.2 = Next
               /\ implb (has_email info) (bool_decide (is_Some (sent_log s.1.1 !! c))) = true).
  { destruct (implb (has_email info) (bool_decide (is_Some (sent_log st !! c)))) eqn:Hc.
    - destruct (Hskip eq_refl) as (H1 & _ & H3). split; [done|]. by rewrite H1.
    - destruct Hstep as [[H1 H2]|(e & es & Hi & Hn & _ & H1 & H2 & H3 & H4)].
      + exfalso. destruct info as [[|e es]|]; try done. cbn in Hc.
        apply bool_decide_eq_false in Hc. apply eq_None_not_Some in Hc.
        pose proof (step_attempt env bs atts total st c e es Hc) as H. cbn zeta in H.
        rewrite Hd in H. fold s in H. destruct H as (H & _).
        rewrite H1 in H. apply (f_equal sent_log) in H.
        rewrite sent_state_log in H. cbn [bump sent_log] in H.
        apply (f_equal (fun m => m !! c)) in H. cbn beta in H.
        rewrite lookup_insert_eq in H. congruence.
      + split.
        * rewrite H4. unfold pause_flow. by rewrite decide_False.
        * rewrite H1, sent_state_log, lookup_insert_eq.
          rewrite bool_decide_eq_true_2 by done. by destruct (has_email info). }
  destruct Hs as [Hfl Hc]. rewrite Hfl.
  destruct (IH s.1.1) as [I1 I2]. specialize (Hinv s.1.1). cbn zeta in Hinv.
  destruct Hinv as (Hmono & _). cbn [fst snd]. split; [done|].
  cbn [covered forallb fst snd]. apply andb_true_iff. split; [|done].
  destruct (has_email info); [|done]. cbn [implb] in *.
  apply bool_decide_eq_true in Hc. apply bool_decide_eq_true.
  destruct Hc as [x Hx]. exists x. by eapply lookup_weaken.
Qed.

(** While no write fails, reading the file back gives the log in
    memory. *)
Lemma loop_synced items : forall st,
  (forall k, fs_write env k = Written) ->
  (load_sent_log (disk st)).1 = sent_log st ->
  let r := loop env bs atts total items st in
  (load_sent_log (disk r.1.1)).1 = sent_log r.1.1.
Proof.
  intros st Hw. revert st.
  induction items as [|[c info] rest IH]; intros st Hst; cbn zeta; [done|].
  rewrite loop_cons. cbn zeta.
  pose proof (step_log st c info) as Hstep. cbn zeta in Hstep.
  set (s := process_country env bs atts total st (c, info)) in *.
  assert (Hs : (load_sent_log (disk s.1.1)).1 = sent_log s.1.1).
  { destruct Hstep as [[H1 H2]|(e & es & Hi & Hn & _ & H1 & H2 & H3 & H4)].
    - by rewrite H1.
    - rewrite H1. unfold sent_state. cbn [disk sent_log]. by rewrite Hw. }
  destruct (s.2); try done. cbn [fst snd]. by apply IH.
Qed.

(** The loop never reads the file: two states that differ in the
    file only go through the same turns. *)
Lemma step_disk_irrelevant st1 st2 item :
  sent_log st1 = sent_log st2 -> processed st1 = processed st2 ->
  let s1 := process_country env bs atts total st1 item in
  let s2 := process_country env bs atts total st2 item in
  s1.1.2 = s2.1.2 /\ s1.2 = s2.2
  /\ sent_log s1.1.1 = sent_log s2.1.1 /\ processed s1.1.1 = processed s2.1.1.
Proof.
  destruct st1 as [l1 d1 p1], st2 as [l2 d2 p2], item as [c info].
  cbn [sent_log processed]. intros -> ->. cbn zeta.
  unfold process_country, bump. cbn [sent_log processed disk].
  case_decide; [done|].
  destruct info as [[|e es]|]; try done.
  destruct (send_email env (S p2) e c atts) as [[[]|] ev]; try done.
  - unfold save_sent_log, batch_pause. cbn [processed].
    destruct (fs_write env (S p2)); repeat case_decide; done.
  - unfold batch_pause. cbn [processed]. repeat case_decide; done.
Qed.

Lemma loop_disk_irrelevant items : forall st1 st2,
  sent_log st1 = sent_log st2 -> processed st1 = processed st2 ->
  let r1 := loop env bs atts total items st1 in
  let r2 := loop env bs atts total items st2 in
  r1.1.2 = r2.1.2 /\ r1.2 = r2.2
  /\ sent_log r1.1.1 = sent_log r2.1.1 /\ processed r1.1.1 = processed r2.1.1.
Proof.
  induction items as [|item rest IH]; intros st1 st2 Hl Hp; cbn zeta; [done|].
  rewrite !loop_cons. cbn zeta.
  destruct (step_disk_irrelevant st1 st2 item Hl Hp) as (H1 & H2 & H3 & H4).
  rewrite H2. destruct (process_country env bs atts total st2 item).2 eqn:E.
  - destruct (IH _ _ H3 H4) as (K1 & K2 & K3 & K4). cbn [fst snd].
    rewrite H1, K1. by repeat split.
  - repeat split; congruence.
  - repeat split; congruence.
Qed.
End loop.

(** *** A whole run *)

Lemma load_embassy_data_effects path data : effects (load_embassy_data path data).2 = [].
Proof. by destruct data. Qed.

Lemma load_sent_log_effects f : effects (load_sent_log f).2 = [].
Proof. by destruct f. Qed.

(** The state in which the loop starts. *)
Lemma process_embassies_loop env path data bs atts log_file :
  let items := (load_embassy_data path data).1 in
  let st0 := {| sent_log := (load_sent_log log_file).1; disk := log_file; processed := 0 |} in
  let l := loop env bs atts (length items) items st0 in
  let r := process_embassies env path data bs atts log_file in
  final r = l.1.1 /\ ended r = l.2 /\ effects (trace r) = effects l.1.2.
Proof.
  cbn zeta. unfold process_embassies.
  pose proof (load_embassy_data_effects path data) as Hd.
  pose proof (load_sent_log_effects log_file) as Hl.
  destruct (load_embassy_data path data) as [items evd].
  destruct (load_sent_log log_file) as [sent evl]. cbn [fst snd] in *.
  destruct (loop env bs atts (length items) items _) as [[st evs] fl].
  cbn [final ended trace fst snd]. split; [done|]. split; [done|].
  rewrite !effects_app, Hd, Hl. cbn [app].
  rewrite <- (app_nil_r (effects evs)) at 2. cbn. f_equal.
  by destruct fl.
Qed.

(** *** The claims about the send loop *)

(** C1.  When the send log has an entry for every country of the
    artifact that has an address, a run sends nothing, writes nothing,
    pauses never and leaves the log and the file as they were.  In
    particular, after a first run in which the relay took every
    message (no write failed, the batch size was not zero), a second
    run over the same artifact and the file the first run left sends
    nothing. *)
Theorem C1_second_run_sends_nothing (env1 env2 : Env) (path : string) (data : Artifact)
    (bs1 bs2 : Z) (atts1 atts2 : list string) (log : SendLog) (log_file : file SendLog) :
  (covered data log = true ->
     let r := process_embassies env2 path (Holds data) bs2 atts2 (Holds log) in
     submits (trace r) = [] /\ effects (trace r) = []
     /\ sent_log (final r) = log /\ disk (final r) = Holds log /\ ended r = Next)
  /\ ((forall k r c, smtp env1 k r c = Delivered) ->
      (forall k, fs_write env1 k = Written) ->
      bs1 <> 0%Z ->
      let r1 := process_embassies env1 path (Holds data) bs1 atts1 log_file in
      let r2 := process_embassies env2 path (Holds data) bs2 atts2 (disk (final r1)) in
      covered data (sent_log (final r1)) = true
      /\ submits (trace r2) = [] /\ effects (trace r2) = []
      /\ sent_log (final r2) = sent_log (final r1)
      /\ disk (final r2) = disk (final r1)).
Proof.
  assert (Hrun : forall (f : file SendLog),
    covered data (load_sent_log f).1 = true ->
    let r := process_embassies env2 path (Holds data) bs2 atts2 f in
    submits (trace r) = [] /\ effects (trace r) = []
    /\ sent_log (final r) = (load_sent_log f).1 /\ disk (final r) = f /\ ended r = Next).
  { intros f Hc. cbn zeta.
    destruct (process_embassies_loop env2 path (Holds data) bs2 atts2 f) as (H1 & H2 & H3).
    cbn [load_embassy_data fst] in H1, H2, H3.
    set (st0 := {| sent_log := (load_sent_log f).1; disk := f; processed := 0 |}) in *.
    destruct (loop_covered env2 bs2 atts2 (length data) data st0 Hc) as (K1 & K2 & K3 & K4 & K5).
    rewrite <- submits_effects, H3, K4, H1, H2, K1, K2, K5. done. }
  split.
  - intros Hc. apply (Hrun (Holds log)). exact Hc.
  - intros Hd Hw Hbs. cbn zeta.
    destruct (process_embassies_loop env1 path (Holds data) bs1 atts1 log_file) as (H1 & H2 & H3).
    cbn [load_embassy_data fst] in H1, H2, H3.
    set (st0 := {| sent_log := (load_sent_log log_file).1; disk := log_file; processed := 0 |}) in *.
    destruct (loop_complete env1 bs1 atts1 (length data) data st0 Hd Hbs) as [K1 K2].
    pose proof (loop_synced env1 bs1 atts1 (length data) data st0 Hw eq_refl) as K3.
    cbn zeta in K3. rewrite <- H1 in K2, K3.
    split; [exact K2|].
    rewrite <- K3 in K2. destruct (Hrun _ K2) as (J1 & J2 & J3 & J4 & J5).
    rewrite J1, J2, J3, J4. by rewrite K3.
Qed.

Lemma C1_second_run_sends_nothing_witness :
  covered [freedonia; ruritania] {["Freedonia" := freedonia_entry]} = true
  /\ (let r := process_embassies env_down data_path (Holds [freedonia; ruritania]) 10 pdf
                 (Holds {["Freedonia" := freedonia_entry]}) in
      submits (trace r) = [] /\ sent_log (final r) = {["Freedonia" := freedonia_entry]})
  /\ (let r1 := process_embassies env_up data_path (Holds [freedonia; ruritania]) 10 pdf Missing in
      let r2 := process_embassies env_down data_path (Holds [freedonia; ruritania]) 10 pdf
                  (disk (final r1)) in
      submits (trace r2) = [] /\ sent_log (final r2) = sent_log (final r1)).
Proof.
  pose proof (C1_second_run_sends_nothing env_up env_down data_path [freedonia; ruritania]
                10 10 pdf pdf {["Freedonia" := freedonia_entry]} Missing) as [H1 H2].
  assert (Hc : covered [freedonia; ruritania] {["Freedonia" := freedonia_entry]} = true)
    by (vm_compute; reflexivity).
  split; [exact Hc|]. split.
  - destruct (H1 Hc) as (A1 & _ & A3 & _). split; [exact A1|exact A3].
  - assert (Hd : forall k r c, smtp env_up k r c = Delivered) by (intros; reflexivity).
    assert (Hw : forall k, fs_write env_up k = Written) by (intros; reflexivity).
    assert (Hbs : 10%Z <> 0%Z) by lia.
    destruct (H2 Hd Hw Hbs) as (_ & B1 & _ & B3 & _). split; [exact B1|exact B3].
Defined.


(** The turn of a country that is not in the send log and whose
    artifact entry has at least one address: one message is handed to
    the relay, addressed to the first address; when the relay takes
    it, the log gets the entry of the country and its write follows
    the submission directly. *)
Lemma turn_first_address (env : Env) (bs : Z) (atts : list string) (total : nat)
    (st : state) (c e : string) (es : list string) :
  sent_log st !! c = None ->
  let s := process_country env bs atts total st (c, Found (e :: es)) in
  let k := S (processed st) in
  let log' := <[c := {| email := e; sent_date := now env k; status := "sent" |}]> (sent_log st) in
  submits s.1.2 = [(e, c)]
  /\ (smtp env k e c = Delivered ->
        s.1.1 = sent_state env st c e
        /\ sent_log s.1.1 = log'
        /\ effects s.1.2
           = [Submit e c (add_attachments env atts).1; WriteLog log'; Sleep 60]
             ++ pause_effects bs k
        /\ s.2 = pause_flow bs
        /\ (fs_write env k = Written -> disk s.1.1 = Holds log')).
Proof.
  intros Hn. cbn zeta.
  pose proof (step_attempt env bs atts total st c e es Hn) as H. cbn zeta in H.
  split.
  - rewrite <- submits_effects.
    destruct (smtp env (S (processed st)) e c); destruct H as (_ & -> & _); cbn;
      unfold pause_effects; by repeat case_decide.
  - intros Hd. rewrite Hd in H. destruct H as (H1 & H2 & H3).
    rewrite H1, H2. split; [done|]. split; [done|]. split; [done|]. split; [done|].
    intros Hw. unfold sent_state. cbn [disk]. by rewrite Hw.
Qed.





(** The pause after a batch, where the code takes it: the turn of a
    country that was attempted, at a count that is a multiple of the
    batch size. *)
Lemma pause_after_attempt (env : Env) (bs : Z) (atts : list string) (total : nat)
    (st : state) (c e : string) (es : list string) :
  sent_log st !! c = None ->
  bs <> 0%Z ->
  (Z.of_nat (S (processed st)) mod bs)%Z = 0%Z ->
  smtp env (S (processed st)) e c <> Interrupted ->
  3600%Z ∈ sleeps (process_country env bs atts total st (c, Found (e :: es))).1.2.
Proof.
  intros Hn Hbs Hm Hi.
  pose proof (step_attempt env bs atts total st c e es Hn) as H. cbn zeta in H.
  rewrite <- sleeps_effects.
  destruct (smtp env (S (processed st)) e c); [| |done]; destruct H as (_ & -> & _);
    unfold pause_effects; rewrite decide_False, decide_True by done; cbn;
    rewrite !elem_of_cons; tauto.
Qed.

(** C7: the pause is missed when the count reaches the batch size on
    a country that is skipped.  With a batch size of two and two
    countries, the second of which has no address, the run ends with
    both processed and without the pause of 3600; with the same two
    countries in the other order the pause is taken. *)
Theorem C7_skipped_country_misses_pause :
  let r := process_embassies env_up data_path (Holds [freedonia; ruritania]) 2 pdf Missing in
  let r' := process_embassies env_up data_path (Holds [ruritania; freedonia]) 2 pdf Missing in
  processed (final r) = 2 /\ ended r = Next /\ sleeps (trace r) = [60%Z]
  /\ processed (final r') = 2 /\ ended r' = Next /\ sleeps (trace r') = [60%Z; 3600%Z].
Proof. repeat split; vm_compute; reflexivity. Qed.

(** A whole run, from the log as loaded: every entry of the send log
    stays as it is, whatever is written to the file lies between the
    log at the start and the log at the end, and every entry that was
    added stems from a message of the run that the relay took. *)
Lemma run_invariant (env : Env) (path : string) (data : file Artifact) (bs : Z)
    (atts : list string) (log_file : file SendLog) :
  let r := process_embassies env path data bs atts log_file in
  let log0 := (load_sent_log log_file).1 in
  log0 ⊆ sent_log (final r)
  /\ Forall (fun L => log0 ⊆ L /\ L ⊆ sent_log (final r)) (writes (trace r))
  /\ (forall c x, sent_log (final r) !! c = Some x -> log0 !! c = None ->
        entry_from_run env (load_embassy_data path data).1 (trace r) c x).
Proof.
  cbn zeta.
  destruct (process_embassies_loop env path data bs atts log_file) as (H1 & H2 & H3).
  set (loaded := (load_embassy_data path data).1) in *.
  set (st0 := {| sent_log := (load_sent_log log_file).1; disk := log_file; processed := 0 |}) in *.
  destruct (loop_invariant env bs atts (length loaded) loaded st0) as (K1 & K2 & K3).
  rewrite H1. cbn [st0 sent_log] in K1, K2, K3.
  split; [exact K1|]. split.
  - by rewrite <- writes_effects, H3, writes_effects.
  - intros c x Hx Hn. destruct (K3 c x Hx Hn) as (es & k & J1 & J2 & J3 & J4).
    exists es, k. repeat split; try done.
    by rewrite <- submits_effects, H3, submits_effects.
Qed.

(** C10.  Loading a send log file that raises when it is opened or
    parsed gives the empty log, as loading an absent file does, with
    one error line logged; a run against such a file hands the same
    messages to the relay, writes the same contents, takes the same
    pauses and ends with the same log as a run against an absent
    file, and its trace is that of the other run with the one error
    line added. *)
Theorem C10_unreadable_log_is_empty (env : Env) (path : string) (data : file Artifact)
    (bs : Z) (atts : list string) (e : string) :
  load_sent_log (Unreadable e) = (∅, [Log ERROR ("Error loading sent log: " +:+ e)])
  /\ load_sent_log Missing = (∅, [])
  /\ (let r := process_embassies env path data bs atts (Unreadable e) in
      let r0 := process_embassies env path data bs atts Missing in
      effects (trace r) = effects (trace r0)
      /\ sent_log (final r) = sent_log (final r0)
      /\ processed (final r) = processed (final r0)
      /\ ended r = ended r0
      /\ exists pre post,
           trace r0 = pre ++ post
           /\ trace r = pre ++ Log ERROR ("Error loading sent log: " +:+ e) :: post).
Proof.
  split; [done|]. split; [done|]. cbn zeta.
  unfold process_embassies. cbn [load_sent_log].
  destruct (load_embassy_data path data) as [items evd].
  set (st := {| sent_log := ∅; disk := Unreadable e; processed := 0 |}).
  set (st0 := {| sent_log := ∅; disk := Missing; processed := 0 |}).
  destruct (loop_disk_irrelevant env bs atts (length items) items st st0 eq_refl eq_refl)
    as (H1 & H2 & H3 & H4).
  destruct (loop env bs atts (length items) items st) as [[s evs] fl].
  destruct (loop env bs atts (length items) items st0) as [[s0 evs0] fl0].
  cbn [fst snd] in H1, H2, H3, H4. subst evs0 fl0.
  cbn [final trace ended]. rewrite H3, H4.
  split.
  { rewrite !effects_app. done. }
  split; [done|]. split; [done|]. split; [done|].
  exists evd. eexists. split; [|reflexivity]. done.
Qed.

(** *** The examples of the specification *)

Example freedonia_first_run :
  let r := process_embassies env_up data_path (Holds [("Freedonia", Found ["visa@freedonia.gov"])])
             10 pdf Missing in
  submits (trace r) = [("visa@freedonia.gov", "Freedonia")]
  /\ sent_log (final r) = {["Freedonia" := freedonia_entry]}
  /\ disk (final r) = Holds {["Freedonia" := freedonia_entry]}.
Proof. repeat split; vm_compute; reflexivity. Qed.

Example ruritania_no_send :
  let r := process_embassies env_up data_path (Holds [ruritania]) 10 pdf Missing in
  submits (trace r) = [] /\ warnings (trace r) = ["No email found for Ruritania"]
  /\ sent_log (final r) = ∅ /\ disk (final r) = Missing.
Proof. repeat split; vm_compute; reflexivity. Qed.

(** A failed send is tried again by the next run. *)
Example failed_send_retried :
  let r1 := process_embassies env_down data_path (Holds [freedonia; sylvania]) 10 pdf Missing in
  let r2 := process_embassies env_up data_path (Holds [freedonia; sylvania]) 10 pdf
              (disk (final r1)) in
  submits (trace r1) = [("visa@freedonia.gov", "Freedonia"); ("embassy@sylvania.org", "Sylvania")]
  /\ sent_log (final r1) = ∅ /\ disk (final r1) = Missing
  /\ submits (trace r2) = [("visa@freedonia.gov", "Freedonia"); ("embassy@sylvania.org", "Sylvania")]
  /\ dom (sent_log (final r2)) = {["Freedonia"; "Sylvania"]}.
Proof. repeat split; vm_compute; reflexivity. Qed.

End ServiceFacts.

(** ** More facts about emailScrapper/scrapper.py *)

Module ScrapperMore.
Import Scrapper Samples Directory MoreSamples.

(** *** White space *)

Lemma lstrip_head s :
  PyStr.lstrip s = "" \/ exists c t, PyStr.lstrip s = String c t /\ PyStr.is_space c = false.
Proof.
  induction s as [|c s IH]; cbn [PyStr.lstrip]; [by left|].
  destruct (PyStr.is_space c) eqn:E; [done|]. right. by exists c, s.
Qed.

Lemma rstrip_idem s : PyStr.rstrip (PyStr.rstrip s) = PyStr.rstrip s.
Proof.
  induction s as [|c s IH]; [done|]. cbn [PyStr.rstrip]. cbn zeta.
  destruct (PyStr.is_space c && PyStr.is_empty (PyStr.rstrip s)) eqn:E; [done|].
  cbn [PyStr.rstrip]. cbn zeta. by rewrite IH, E.
Qed.

Lemma rstrip_keeps_head c t :
  PyStr.is_space c = false -> PyStr.rstrip (String c t) = String c (PyStr.rstrip t).
Proof. intros H. cbn [PyStr.rstrip]. cbn zeta. by rewrite H. Qed.

Lemma strip_idem s : PyStr.strip (PyStr.strip s) = PyStr.strip s.
Proof.
  unfold PyStr.strip. destruct (lstrip_head s) as [->|(c & t & -> & Hc)]; [done|].
  rewrite (rstrip_keeps_head c t Hc). cbn [PyStr.lstrip]. rewrite Hc.
  by rewrite (rstrip_keeps_head _ _ Hc), rstrip_idem.
Qed.

(** *** What the extractor returns *)

Lemma mailto_href_contains n h :
  mailto_href n = Some h -> PyStr.contains "mailto:" h = true /\ h <> "".
Proof.
  destruct n as [|name cls [h'|] cs]; cbn [mailto_href]; try done.
  destruct (bool_decide (name = "a") && negb (PyStr.is_empty h') && PyStr.contains "mailto:" h')
    eqn:E; [|done].
  intros [= <-]. apply andb_true_iff in E as [E1 E2]. apply andb_true_iff in E1 as [_ E1].
  split; [done|]. intros ->. done.
Qed.

(** X1.  When the extractor returns [Found], the list is not empty and
    has no duplicates, and every address in it is not empty, carries
    no white space at either end, and is the cleaned link of a mailto
    anchor inside the contact container. *)
Theorem found_addresses_well_formed (soup : list node) (es : list string) :
  extract_embassy_emails soup = Found es ->
  es <> [] /\ NoDup es
  /\ forall e, e ∈ es ->
       e <> "" /\ PyStr.strip e = e
       /\ exists div h,
            find_contact_div soup = Some div /\ h ∈ email_links div
            /\ PyStr.contains "mailto:" h = true /\ e = clean h.
Proof.
  intros H. destruct (find_contact_div soup) as [div|] eqn:Hdiv.
  2:{ unfold extract_embassy_emails in H. by rewrite Hdiv in H. }
  rewrite (ScrapperFacts.extract_with_container _ _ Hdiv) in H.
  assert (Hes : es = dedup_first (addresses div) /\ addresses div <> []).
  { destruct (addresses div); [done|]. by injection H as <-. }
  clear H. destruct Hes as [-> Hne0].
  split; [by rewrite ScrapperFacts.dedup_first_nil|].
  split; [apply ScrapperFacts.NoDup_dedup_first|].
  intros e He. rewrite ScrapperFacts.elem_of_dedup_first in He.
  unfold addresses in He. apply list_elem_of_filter in He as [Hne He].
  apply list_elem_of_fmap in He as (h & -> & Hh).
  split; [done|]. split; [apply strip_idem|].
  assert (Hc : PyStr.contains "mailto:" h = true).
  { unfold email_links in Hh. apply list_elem_of_omap in Hh as (n & _ & Hn).
    by apply mailto_href_contains in Hn as [? _]. }
  exists div, h. by repeat split.
Qed.

Lemma found_addresses_well_formed_witness :
  extract_embassy_emails page_two_addresses
    = Found ["visa@freedonia.gov"; "consul@freedonia.gov"]
  /\ NoDup ["visa@freedonia.gov"; "consul@freedonia.gov"].
Proof.
  assert (H : extract_embassy_emails page_two_addresses
              = Found ["visa@freedonia.gov"; "consul@freedonia.gov"]) by reflexivity.
  split; [exact H|].
  exact (proj1 (proj2 (found_addresses_well_formed page_two_addresses _ H))).
Defined.

(** X2.  The extractor looks at the first contact container only:
    the page around it makes no difference to the result. *)
Theorem extract_depends_on_container_only (soup : list node) (div : node) :
  find_contact_div soup = Some div ->
  extract_embassy_emails soup = extract_embassy_emails [div].
Proof.
  intros H. pose proof (ScrapperFacts.find_contact_div_Some _ _ H) as [_ Hc].
  assert (H' : find_contact_div [div] = Some div).
  { unfold find_contact_div, soup_nodes. cbn [flat_map List.find app]. by rewrite Hc. }
  by rewrite (ScrapperFacts.extract_with_container _ _ H),
             (ScrapperFacts.extract_with_container _ _ H').
Qed.

Lemma extract_depends_on_container_only_witness :
  find_contact_div page_two_addresses = Some (container two_addresses)
  /\ extract_embassy_emails page_two_addresses
     = extract_embassy_emails [container two_addresses].
Proof.
  assert (H : find_contact_div page_two_addresses = Some (container two_addresses))
    by reflexivity.
  split; [exact H|]. exact (extract_depends_on_container_only _ _ H).
Defined.

(** X3.  For a link of the form [mailto:ADDRESS] whose address has no
    further [mailto:] in it, cleaning gives the address without the
    white space around it. *)
Theorem clean_strips_scheme (addr : string) :
  PyStr.contains "mailto:" addr = false ->
  clean ("mailto:" +:+ addr) = PyStr.strip addr
  /\ PyStr.strip (clean ("mailto:" +:+ addr)) = clean ("mailto:" +:+ addr).
Proof.
  intros H. rewrite (ScrapperFacts.clean_mailto_prefix _ H). split; [done|apply strip_idem].
Qed.

Lemma clean_strips_scheme_witness :
  PyStr.contains "mailto:" " visa@freedonia.gov " = false
  /\ clean "mailto: visa@freedonia.gov " = "visa@freedonia.gov".
Proof.
  assert (H : PyStr.contains "mailto:" " visa@freedonia.gov " = false) by reflexivity.
  split; [exact H|]. exact (proj1 (clean_strips_scheme _ H)).
Defined.

(** The removal is one pass: what the pass leaves may read [mailto:]. *)
Example clean_is_one_pass : clean "mailmailto:to:a@b.c" = "mailto:a@b.c".
Proof. reflexivity. Qed.

(** *** The mapping the scraper builds *)

Lemma pydict_keys_set {V} k (v : V) d :
  (pydict_set k v d).*1 = if decide (k ∈ d.*1) then d.*1 else d.*1 ++ [k].
Proof.
  induction d as [|[k' v'] d IH]; [done|]. cbn [pydict_set].
  destruct (decide (k' = k)) as [->|Hne].
  - cbn. rewrite decide_True; [done|]. apply elem_of_cons. by left.
  - cbn [fmap list_fmap fst]. fold (fmap (M:=list) (@fst string V)). rewrite IH.
    destruct (decide (k ∈ d.*1)) as [Hin|Hin].
    + rewrite decide_True; [done|]. apply elem_of_cons. by right.
    + rewrite decide_False; [done|]. rewrite elem_of_cons. intros [?|?]; congruence.
Qed.

Lemma pydict_set_NoDup {V} k (v : V) d : NoDup d.*1 -> NoDup (pydict_set k v d).*1.
Proof.
  intros H. rewrite pydict_keys_set. case_decide; [done|].
  apply NoDup_app. split; [done|]. split; [|apply NoDup_singleton].
  intros x Hx Hk. apply list_elem_of_singleton in Hk. congruence.
Qed.

Lemma pydict_get_set_ne {V} k k' (v : V) d :
  k <> k' -> pydict_get k' (pydict_set k v d) = pydict_get k' d.
Proof.
  intros Hne. induction d as [|[k0 v0] d IH]; cbn [pydict_set pydict_get].
  - by rewrite decide_False.
  - destruct (decide (k0 = k)) as [->|H0]; cbn [pydict_get].
    + by rewrite !decide_False.
    + by rewrite IH.
Qed.

Section scrape_loop.
Variable web : nat -> string -> response.

Lemma scrape_country_fields self c :
  embassy_data (scrape_country web self c)
    = pydict_set (name c) (stored web (requests self) c) (embassy_data self)
  /\ requests (scrape_country web self c) = S (requests self)
  /\ out (scrape_country web self c)
     = out self ++ Get (url c)
         :: (if fetch_ok (web (requests self) (url c)) then [Sleep 2] else []).
Proof. unfold scrape_country, stored. by destruct (web (requests self) (url c)). Qed.

Lemma scrape_loop_requests cs : forall self,
  requests (fold_left (scrape_country web) cs self) = requests self + length cs.
Proof.
  induction cs as [|c cs IH]; intros self; cbn [fold_left length]; [lia|].
  rewrite IH. destruct (scrape_country_fields self c) as (_ & -> & _). lia.
Qed.

Lemma scrape_loop_gets cs : forall self,
  gets (out (fold_left (scrape_country web) cs self)) = gets (out self) ++ (url <$> cs).
Proof.
  induction cs as [|c cs IH]; intros self; cbn [fold_left]; [by rewrite app_nil_r|].
  rewrite IH. destruct (scrape_country_fields self c) as (_ & _ & ->).
  unfold gets. rewrite omap_app, <- app_assoc. f_equal.
  by destruct (fetch_ok _).
Qed.

Lemma scrape_loop_pauses cs : forall self,
  exists ps,
    pauses (out (fold_left (scrape_country web) cs self)) = pauses (out self) ++ ps
    /\ Forall (fun p => p = 2%Z) ps /\ length ps <= length cs
    /\ ((forall k u, fetch_ok (web k u) = true) -> ps = replicate (length cs) 2%Z)
    /\ ((forall k u, fetch_ok (web k u) = false) -> ps = []).
Proof.
  induction cs as [|c cs IH]; intros self; cbn [fold_left].
  { exists []. rewrite app_nil_r. by repeat split. }
  destruct (IH (scrape_country web self c)) as (ps & H1 & H2 & H3 & H4 & H5).
  destruct (scrape_country_fields self c) as (_ & _ & Ho). rewrite Ho in H1.
  destruct (fetch_ok (web (requests self) (url c))) eqn:E.
  - exists (2%Z :: ps). unfold pauses in *. rewrite H1, omap_app, <- app_assoc.
    split; [done|]. split; [by constructor|]. split; [cbn; lia|]. split.
    + intros Hall. cbn. by rewrite (H4 Hall).
    + intros Hall. by rewrite Hall in E.
  - exists ps. unfold pauses in *. rewrite H1, omap_app, <- app_assoc.
    split; [done|]. split; [done|]. split; [cbn; lia|]. split.
    + intros Hall. by rewrite Hall in E.
    + done.
Qed.

Lemma scrape_loop_keys cs : forall self,
  (NoDup (embassy_data self).*1 ->
   NoDup (embassy_data (fold_left (scrape_country web) cs self)).*1)
  /\ (forall n, n ∈ (embassy_data (fold_left (scrape_country web) cs self)).*1
         <-> n ∈ (embassy_data self).*1 \/ n ∈ name <$> cs).
Proof.
  induction cs as [|c cs IH]; intros self; cbn [fold_left].
  { split; [done|]. intros n. rewrite fmap_nil, elem_of_nil. tauto. }
  destruct (IH (scrape_country web self c)) as [I1 I2].
  destruct (scrape_country_fields self c) as (Hd & _ & _).
  split.
  - intros Hnd. apply I1. rewrite Hd. by apply pydict_set_NoDup.
  - intros n. rewrite I2, Hd, pydict_keys_set, fmap_cons, elem_of_cons.
    case_decide as Hin.
    + split; [tauto|]. intros [?|[->|?]]; tauto.
    + rewrite elem_of_app, list_elem_of_singleton. tauto.
Qed.

Lemma scrape_loop_keeps cs : forall self n,
  n ∉ (name <$> cs) ->
  pydict_get n (embassy_data (fold_left (scrape_country web) cs self))
  = pydict_get n (embassy_data self).
Proof.
  induction cs as [|c cs IH]; intros self n Hn; cbn [fold_left]; [done|].
  rewrite fmap_cons, not_elem_of_cons in Hn. destruct Hn as [Hne Hn].
  rewrite IH by done. destruct (scrape_country_fields self c) as (-> & _ & _).
  by apply pydict_get_set_ne.
Qed.

Lemma fold_left_app_scrape l1 l2 self :
  fold_left (scrape_country web) (l1 ++ l2) self
  = fold_left (scrape_country web) l2 (fold_left (scrape_country web) l1 self).
Proof. apply fold_left_app. Qed.

(** X4.  The scrape loop makes one request per country, in the order
    of the directory, whatever the earlier requests did; then it
    writes the mapping it returns to the artifact, once, as its last
    act. *)
Theorem scrape_requests_every_country (cs : list country) :
  let r := scrape_all_countries web cs EmbassyScraper in
  gets (out r) = url <$> cs
  /\ requests r = length cs
  /\ dumps (out r) = [("embassy_emails.json", embassy_data r)]
  /\ last (out r) = Some (Dump "embassy_emails.json" (embassy_data r)).
Proof.
  cbn zeta. unfold scrape_all_countries. cbn [out requests embassy_data].
  split; [|split; [|split]].
  - unfold gets. rewrite omap_app. fold (gets (out (fold_left (scrape_country web) cs EmbassyScraper))).
    rewrite scrape_loop_gets. cbn. by rewrite app_nil_r.
  - by rewrite scrape_loop_requests.
  - unfold dumps. rewrite omap_app. cbn.
    assert (H : forall l self, omap (fun ev => match ev with Dump p d => Some (p, d) | _ => None end)
                  (out (fold_left (scrape_country web) l self))
                = omap (fun ev => match ev with Dump p d => Some (p, d) | _ => None end) (out self)).
    { induction l as [|c l IH]; intros self; cbn [fold_left]; [done|].
      rewrite IH. destruct (scrape_country_fields self c) as (_ & _ & ->).
      rewrite omap_app. cbn. destruct (fetch_ok _); cbn; by rewrite app_nil_r. }
    by rewrite H.
  - by rewrite last_snoc.
Qed.

(** X5.  The keys of the mapping are the names of the directory, each
    once. *)
Theorem scrape_keys_are_names (cs : list country) :
  let r := scrape_all_countries web cs EmbassyScraper in
  NoDup (embassy_data r).*1
  /\ forall n, n ∈ (embassy_data r).*1 <-> n ∈ name <$> cs.
Proof.
  cbn zeta. unfold scrape_all_countries. cbn [embassy_data].
  destruct (scrape_loop_keys cs EmbassyScraper) as [H1 H2]. split.
  - apply H1. constructor.
  - intros n. rewrite H2. cbn. rewrite elem_of_nil. tauto.
Qed.

(** X6.  When the directory repeats a name, the mapping keeps what the
    last request for that name gave: the result of the extractor on
    the page, or the message of the error the request raised. *)
Theorem scrape_last_request_wins (l1 l2 : list country) (c : country) :
  name c ∉ (name <$> l2) ->
  pydict_get (name c)
    (embassy_data (scrape_all_countries web (l1 ++ c :: l2) EmbassyScraper))
  = Some (stored web (length l1) c).
Proof.
  intros Hn. unfold scrape_all_countries. cbn [embassy_data].
  rewrite fold_left_app_scrape. cbn [fold_left].
  rewrite scrape_loop_keeps by done.
  destruct (scrape_country_fields (fold_left (scrape_country web) l1 EmbassyScraper) c)
    as (-> & _ & _).
  rewrite ScrapperFacts.pydict_get_set, scrape_loop_requests. done.
Qed.

Lemma in_pydict_set {V} k (v : V) d x :
  x ∈ pydict_set k v d -> x ∈ d \/ x = (k, v).
Proof.
  induction d as [|[k' v'] d IH]; cbn [pydict_set].
  - intros Hx. apply list_elem_of_singleton in Hx. by right.
  - destruct (decide (k' = k)) as [->|Hne]; rewrite !elem_of_cons; intros [->|Hx];
      try tauto; destruct (IH Hx); tauto.
Qed.

Lemma scrape_loop_values cs : forall self n es,
  (n, Found es) ∈ embassy_data (fold_left (scrape_country web) cs self) ->
  (n, Found es) ∈ embassy_data self \/ (es <> [] /\ NoDup es /\ "" ∉ es).
Proof.
  induction cs as [|c cs IH]; intros self n es Hin; cbn [fold_left] in Hin; [by left|].
  apply IH in Hin as [Hin|Hin]; [|by right].
  destruct (scrape_country_fields self c) as (Hd & _ & _). rewrite Hd in Hin.
  apply in_pydict_set in Hin as [Hin|Hin]; [by left|]. right.
  injection Hin as -> Hs. unfold stored in Hs.
  destruct (web (requests self) (url c)) as [e|soup]; [done|]. symmetry in Hs.
  destruct (found_addresses_well_formed soup es Hs) as (H1 & H2 & H3).
  split; [done|]. split; [done|]. intros He. by destruct (H3 "" He) as [? _].
Qed.

(** X10.  Whatever the site returns, the mapping never holds an empty
    list of addresses: a country is stored with an error marker or
    with at least one address, and its addresses are distinct and not
    empty. *)
Theorem scrape_values_well_formed (cs : list country) (n : string) (es : list string) :
  (n, Found es) ∈ embassy_data (scrape_all_countries web cs EmbassyScraper) ->
  es <> [] /\ NoDup es /\ "" ∉ es.
Proof.
  unfold scrape_all_countries. cbn [embassy_data]. intros Hin.
  apply scrape_loop_values in Hin as [Hin|Hin]; [|done]. by apply elem_of_nil in Hin.
Qed.

(** X7.  The pauses of a scrape run are all of 2 seconds and at most
    one per country; when every request succeeds there is one per
    country, and when every request fails there is none. *)
Theorem scrape_pauses (cs : list country) :
  let r := scrape_all_countries web cs EmbassyScraper in
  Forall (fun p => p = 2%Z) (pauses (out r))
  /\ length (pauses (out r)) <= length cs
  /\ ((forall k u, fetch_ok (web k u) = true) -> pauses (out r) = replicate (length cs) 2%Z)
  /\ ((forall k u, fetch_ok (web k u) = false) -> pauses (out r) = []).
Proof.
  cbn zeta. unfold scrape_all_countries. cbn [out].
  destruct (scrape_loop_pauses cs EmbassyScraper) as (ps & H1 & H2 & H3 & H4 & H5).
  assert (H : pauses (out (fold_left (scrape_country web) cs EmbassyScraper)
                      ++ [Dump "embassy_emails.json"
                            (embassy_data (fold_left (scrape_country web) cs EmbassyScraper))])
              = ps).
  { unfold pauses in *. rewrite omap_app, H1. cbn. by rewrite app_nil_r. }
  rewrite H. by repeat split.
Qed.
End scrape_loop.

Lemma scrape_last_request_wins_witness :
  (name Freedonia ∉ name <$> [Ruritania])
  /\ pydict_get "Freedonia"
       (embassy_data (scrape_all_countries web_first_fails [Freedonia; Freedonia; Ruritania]
                        EmbassyScraper))
     = Some (Found ["visa@freedonia.gov"; "consul@freedonia.gov"]).
Proof.
  assert (H : name Freedonia ∉ (name <$> [Ruritania])).
  { intros Hin. apply list_elem_of_singleton in Hin. discriminate Hin. }
  split; [exact H|].
  exact (scrape_last_request_wins web_first_fails [Freedonia] [Ruritania] Freedonia H).
Defined.

Lemma scrape_values_well_formed_witness :
  ("Ruritania", Found ["visa@freedonia.gov"; "consul@freedonia.gov"])
    ∈ embassy_data (scrape_all_countries web_first_fails [Freedonia; Ruritania] EmbassyScraper)
  /\ NoDup ["visa@freedonia.gov"; "consul@freedonia.gov"].
Proof.
  assert (H : ("Ruritania", Found ["visa@freedonia.gov"; "consul@freedonia.gov"])
              ∈ embassy_data (scrape_all_countries web_first_fails [Freedonia; Ruritania]
                                EmbassyScraper)).
  { apply elem_of_cons. right. apply elem_of_cons. left. reflexivity. }
  split; [exact H|].
  exact (proj1 (proj2 (scrape_values_well_formed web_first_fails _ _ _ H))).
Defined.

Lemma scrape_pauses_witness :
  (forall k u, fetch_ok (web_up k u) = true)
  /\ pauses (out (scrape_all_countries web_up [Freedonia; Ruritania] EmbassyScraper))
     = [2%Z; 2%Z].
Proof.
  assert (H : forall k u, fetch_ok (web_up k u) = true) by (intros; reflexivity).
  split; [exact H|].
  exact (proj1 (proj2 (proj2 (scrape_pauses web_up [Freedonia; Ruritania]))) H).
Defined.

(** *** The directory *)

Lemma node_induction (P : node -> Prop) :
  (forall s, P (NText s)) ->
  (forall name cls href cs, Forall P cs -> P (NTag name cls href cs)) ->
  forall n, P n.
Proof.
  intros Ht Hn. fix IH 1. intros [s|name cls href cs]; [apply Ht|].
  apply Hn. induction cs as [|c cs IHcs]; constructor; [apply IH|apply IHcs].
Qed.

Lemma descendants_tag name cls href cs :
  descendants (NTag name cls href cs) = flat_map (fun c => c :: descendants c) cs.
Proof.
  cbn [descendants]. induction cs as [|c cs IH]; [done|].
  cbn [flat_map]. rewrite <- IH. done.
Qed.

Lemma select_below_tag inside name cls href cs :
  select_below inside (NTag name cls href cs)
  = (if inside && is_anchor (NTag name cls href cs) then [NTag name cls href cs] else [])
    ++ flat_map (select_below (inside || is_menu_div (NTag name cls href cs))) cs.
Proof.
  reflexivity.
Qed.

(** The selector picks anchors only, and only below a menu frame. *)
Lemma select_below_sound n : forall inside link,
  link ∈ select_below inside n ->
  is_anchor link = true /\ link ∈ n :: descendants n
  /\ (inside = true
      \/ exists d, d ∈ n :: descendants n /\ is_menu_div d = true /\ link ∈ descendants d).
Proof.
  induction n as [s|name cls href cs IH] using node_induction; intros inside link Hin.
  - destruct inside; cbn in Hin; by apply elem_of_nil in Hin.
  - rewrite select_below_tag in Hin. apply elem_of_app in Hin as [Hin|Hin].
    + destruct (inside && is_anchor (NTag name cls href cs)) eqn:E;
        [|by apply elem_of_nil in Hin].
      apply list_elem_of_singleton in Hin as ->.
      apply andb_true_iff in E as [E1 E2].
      split; [done|]. split; [apply elem_of_cons; by left|by left].
    + apply list_elem_of_In, in_flat_map in Hin as (c & Hc & Hin).
      apply list_elem_of_In in Hc, Hin.
      rewrite Forall_forall in IH. destruct (IH c Hc _ _ Hin) as (H1 & H2 & H3).
      assert (Hsub : forall x, x ∈ c :: descendants c -> x ∈ descendants (NTag name cls href cs)).
      { intros x Hx. rewrite descendants_tag. apply list_elem_of_In, in_flat_map.
        exists c. split; by apply list_elem_of_In. }
      split; [done|]. split; [apply elem_of_cons; right; by apply Hsub|].
      destruct H3 as [H3|(d & Hd & Hm & Hl)].
      * apply orb_true_iff in H3 as [H3|H3]; [by left|]. right.
        exists (NTag name cls href cs). split; [apply elem_of_cons; by left|].
        split; [done|]. by apply Hsub.
      * right. exists d. split; [apply elem_of_cons; right; by apply Hsub|]. done.
Qed.

Lemma in_descendants_tag name cls href cs x :
  x ∈ descendants (NTag name cls href cs) <-> exists c, c ∈ cs /\ x ∈ c :: descendants c.
Proof.
  rewrite descendants_tag, list_elem_of_In, in_flat_map. split.
  - intros (c & Hc & Hx). exists c. by rewrite !list_elem_of_In.
  - intros (c & Hc & Hx). exists c. by rewrite <- !list_elem_of_In.
Qed.

Lemma in_select_children inside name cls href cs x :
  (exists c, c ∈ cs
     /\ x ∈ select_below (inside || is_menu_div (NTag name cls href cs)) c) ->
  x ∈ select_below inside (NTag name cls href cs).
Proof.
  intros (c & Hc & Hx). rewrite select_below_tag, elem_of_app. right.
  apply list_elem_of_In, in_flat_map. exists c. by rewrite <- !list_elem_of_In.
Qed.

Lemma select_below_inside n : forall link,
  link ∈ n :: descendants n -> is_anchor link = true -> link ∈ select_below true n.
Proof.
  induction n as [s|name cls href cs IH] using node_induction; intros link Hin Ha.
  - apply list_elem_of_singleton in Hin as ->. done.
  - apply elem_of_cons in Hin as [->|Hin].
    + rewrite select_below_tag, elem_of_app. left. rewrite Ha. cbn.
      by apply list_elem_of_singleton.
    + apply in_descendants_tag in Hin as (c & Hc & Hin).
      apply in_select_children. exists c. split; [done|].
      rewrite Forall_forall in IH. by apply IH.
Qed.

(** Every anchor below a menu frame is picked. *)
Lemma select_below_complete n : forall inside d link,
  d ∈ n :: descendants n -> is_menu_div d = true ->
  link ∈ descendants d -> is_anchor link = true ->
  link ∈ select_below inside n.
Proof.
  induction n as [s|name cls href cs IH] using node_induction;
    intros inside d link Hd Hm Hl Ha.
  - apply list_elem_of_singleton in Hd as ->. done.
  - apply elem_of_cons in Hd as [->|Hd].
    + apply in_descendants_tag in Hl as (c & Hc & Hl).
      apply in_select_children. exists c. split; [done|].
      rewrite Hm, orb_true_r. by apply select_below_inside.
    + apply in_descendants_tag in Hd as (c & Hc & Hd).
      apply in_select_children. exists c. split; [done|].
      rewrite Forall_forall in IH. by eapply IH.
Qed.

Lemma in_soup_nodes soup x :
  x ∈ soup_nodes soup <-> exists n, n ∈ soup /\ x ∈ n :: descendants n.
Proof.
  unfold soup_nodes. rewrite list_elem_of_In, in_flat_map. split.
  - intros (n & Hn & Hx). exists n. by rewrite !list_elem_of_In.
  - intros (n & Hn & Hx). exists n. by rewrite <- !list_elem_of_In.
Qed.

Lemma in_select_menu_links soup link :
  link ∈ select_menu_links soup <->
  is_anchor link = true
  /\ exists d, d ∈ soup_nodes soup /\ is_menu_div d = true /\ link ∈ descendants d.
Proof.
  unfold select_menu_links. rewrite list_elem_of_In, in_flat_map. split.
  - intros (n & Hn & Hl). apply list_elem_of_In in Hn, Hl.
    destruct (select_below_sound n false link Hl) as (H1 & H2 & [H3|(d & Hd & Hm & Hld)]);
      [done|].
    split; [done|]. exists d. split; [|done]. apply in_soup_nodes. by exists n.
  - intros (Ha & d & Hd & Hm & Hl). apply in_soup_nodes in Hd as (n & Hn & Hd).
    exists n. rewrite <- !list_elem_of_In. split; [done|].
    by eapply select_below_complete.
Qed.

Lemma link_href_nonempty link h : link_href link = Some h -> h <> "".
Proof.
  destruct link as [|nm cls [h'|] cs]; cbn [link_href]; try done.
  destruct (PyStr.is_empty h') eqn:E; [done|]. intros [= ->] ->. done.
Qed.

Section links.
Variable urljoin : string -> string -> option string.

Lemma country_loop_Some links : forall acc cs,
  country_loop urljoin links acc = Some cs ->
  cs = acc ++ omap (turn_country urljoin) links
  /\ forall link h, link ∈ links -> link_href link = Some h -> urljoin base_url h <> None.
Proof.
  induction links as [|link rest IH]; intros acc cs H; cbn [country_loop] in H.
  - injection H as <-. cbn. rewrite app_nil_r. split; [done|]. intros ? ? Hl. inversion Hl.
  - cbn [omap list_omap]. fold (omap (turn_country urljoin) rest). unfold turn_country at 1.
    destruct (link_href link) as [h|] eqn:Eh.
    + unfold country_of in *. destruct (urljoin base_url h) as [u|] eqn:Eu; [|done].
      destruct (IH _ _ H) as [-> K]. rewrite <- app_assoc. split; [done|].
      intros l' h' Hl Hh. apply elem_of_cons in Hl as [->|Hl]; [|by eapply K].
      rewrite Eh in Hh. injection Hh as <-. by rewrite Eu.
    + destruct (IH _ _ H) as [-> K]. split; [done|].
      intros l' h' Hl Hh. apply elem_of_cons in Hl as [->|Hl]; [|by eapply K].
      by rewrite Eh in Hh.
Qed.

Lemma country_loop_None links : forall acc,
  country_loop urljoin links acc = None ->
  exists link h, link ∈ links /\ link_href link = Some h /\ urljoin base_url h = None.
Proof.
  induction links as [|link rest IH]; intros acc H; cbn [country_loop] in H; [done|].
  destruct (link_href link) as [h|] eqn:Eh.
  - unfold country_of in H. destruct (urljoin base_url h) as [u|] eqn:Eu.
    + destruct (IH _ H) as (l' & h' & Hl & Hh & Hu). exists l', h'.
      split; [apply elem_of_cons; by right|done].
    + exists link, h. split; [apply elem_of_cons; by left|done].
  - destruct (IH _ H) as (l' & h' & Hl & Hh & Hu). exists l', h'.
    split; [apply elem_of_cons; by right|done].
Qed.

(** X8.  The links the directory fetcher follows are the anchors with
    a non-empty link that lie below a menu frame of the directory
    page.  When [urljoin] takes every one of them, the fetcher returns
    one country for each, in document order: the name is the text of
    the anchor without the white space around it, the address is the
    link joined to the base address.  When [urljoin] raises on one of
    them, the fetcher returns no country at all, and so it does when
    the request for the directory page raises. *)
Theorem country_links_from_menu (soup : list node) (e : string) :
  let links := select_menu_links soup in
  let joins := forall link h, link ∈ links -> link_href link = Some h ->
                 urljoin base_url h <> None in
  (forall link, link ∈ links <->
     is_anchor link = true
     /\ exists d, d ∈ soup_nodes soup /\ is_menu_div d = true /\ link ∈ descendants d)
  /\ (joins ->
      get_country_links urljoin (Page soup) = omap (turn_country urljoin) links
      /\ forall c, c ∈ get_country_links urljoin (Page soup) <->
           exists link h u,
             link ∈ links /\ link_href link = Some h /\ h <> ""
             /\ urljoin base_url h = Some u
             /\ c = {| name := PyStr.strip (get_text link); url := u |})
  /\ (~ joins -> get_country_links urljoin (Page soup) = [])
  /\ (forall c, c ∈ get_country_links urljoin (Page soup) -> PyStr.strip (name c) = name c)
  /\ get_country_links urljoin (Raises e) = [].
Proof.
  cbn zeta.
  assert (Hall : (forall link h, link ∈ select_menu_links soup -> link_href link = Some h ->
                    urljoin base_url h <> None) ->
                 get_country_links urljoin (Page soup)
                 = omap (turn_country urljoin) (select_menu_links soup)).
  { intros Hj. cbn [get_country_links].
    destruct (country_loop urljoin (select_menu_links soup) []) as [cs|] eqn:E.
    - by destruct (country_loop_Some _ _ _ E) as [-> _].
    - destruct (country_loop_None _ _ E) as (l & h & Hl & Hh & Hu).
      by destruct (Hj l h Hl Hh). }
  assert (Hin : forall c, c ∈ omap (turn_country urljoin) (select_menu_links soup) ->
                  exists link h u,
                    link ∈ select_menu_links soup /\ link_href link = Some h /\ h <> ""
                    /\ urljoin base_url h = Some u
                    /\ c = {| name := PyStr.strip (get_text link); url := u |}).
  { intros c Hc. apply list_elem_of_omap in Hc as (link & Hl & Hc).
    unfold turn_country in Hc. destruct (link_href link) as [h|] eqn:Eh; [|done].
    unfold country_of in Hc. destruct (urljoin base_url h) as [u|] eqn:Eu; [|done].
    injection Hc as <-. exists link, h, u. repeat split; try done.
    by eapply link_href_nonempty. }
  split; [apply in_select_menu_links|]. split; [|split; [|split; [|done]]].
  - intros Hj. split; [by apply Hall|]. intros c. rewrite (Hall Hj). split; [apply Hin|].
    intros (link & h & u & Hl & Hh & _ & Hu & ->). apply list_elem_of_omap.
    exists link. split; [done|]. unfold turn_country, country_of. by rewrite Hh, Hu.
  - intros Hn. cbn [get_country_links].
    destruct (country_loop urljoin (select_menu_links soup) []) as [cs|] eqn:E; [|done].
    destruct (country_loop_Some _ _ _ E) as [_ K]. by destruct Hn.
  - intros c Hc. cbn [get_country_links] in Hc.
    destruct (country_loop urljoin (select_menu_links soup) []) as [cs|] eqn:E;
      [|by apply elem_of_nil in Hc].
    destruct (country_loop_Some _ _ _ E) as [-> _]. cbn [app] in Hc.
    destruct (Hin c Hc) as (link & h & u & _ & _ & _ & _ & ->). cbn [name].
    apply strip_idem.
Qed.

(** X9.  When the request for the directory page raises, the scraper
    makes no further request and writes an empty mapping to the
    artifact, replacing what was there. *)
Theorem scrape_site_without_directory (e : string) (web : nat -> string -> response) :
  let r := scrape_site urljoin (Raises e) web in
  out r = [Dump "embassy_emails.json" []] /\ embassy_data r = [] /\ requests r = 0.
Proof. done. Qed.
End links.

Example directory_links :
  get_country_links join_abs (Page directory_page)
  = [Freedonia; Ruritania; Freedonia].
Proof. reflexivity. Qed.

(** One link of the menu that [urljoin] refuses loses the countries
    found before it and those after it. *)
Example directory_bad_link :
  get_country_links join_abs (Page directory_page_bad_link) = []
  /\ select_menu_links directory_page_bad_link
     = [NTag "a" [] (Some "/freedonia.html")
          [NText "  "; NTag "span" [] None [NText "Freedonia"]; NText " "];
        NTag "a" [] (Some "http://[")
          [NText "  "; NTag "span" [] None [NText "Nowhere"]; NText " "];
        NTag "a" [] (Some "/ruritania.html")
          [NText "  "; NTag "span" [] None [NText "Ruritania"]; NText " "]]
  /\ join_abs base_url "http://[" = None.
Proof. repeat split. Qed.

(** The directory repeats Freedonia: its first request fails, its
    second gives a page, and the mapping keeps the second. *)
Example scrape_site_repeated_name :
  embassy_data (scrape_site join_abs (Page directory_page) web_first_fails)
  = [("Freedonia", Found ["visa@freedonia.gov"; "consul@freedonia.gov"]);
     ("Ruritania", Found ["visa@freedonia.gov"; "consul@freedonia.gov"])].
Proof. reflexivity. Qed.

End ScrapperMore.

(** ** More facts about emailService/main.py *)

Module ServiceMore.
Import Service ServiceSamples Readings Entry MoreServiceSamples.

Section turns.
Variables (env : Env) (bs : Z) (atts : list string) (total : nat).

(** One turn, summed up: a country that is skipped, or one that is
    attempted, with what the attempt leaves. *)
Lemma step_cases st c info :
  let s := process_country env bs atts total st (c, info) in
  (first_address (c, info) = None \/ is_Some (sent_log st !! c))
  /\ s.1.1 = bump st /\ effects s.1.2 = [] /\ s.2 = Next
  \/ exists e es,
       info = Found (e :: es) /\ sent_log st !! c = None
       /\ match smtp env (S (processed st)) e c with
          | Delivered =>
              s.1.1 = sent_state env st c e
              /\ effects s.1.2
                 = [Submit e c (add_attachments env atts).1;
                    WriteLog (sent_log (sent_state env st c e)); Sleep 60]
                   ++ pause_effects bs (S (processed st))
              /\ s.2 = pause_flow bs
          | Raised _ =>
              s.1.1 = bump st
              /\ effects s.1.2
                 = Submit e c (add_attachments env atts).1 :: pause_effects bs (S (processed st))
              /\ s.2 = pause_flow bs
          | Interrupted =>
              s.1.1 = bump st
              /\ effects s.1.2 = [Submit e c (add_attachments env atts).1]
              /\ s.2 = KeyboardInterrupt
          end.
Proof.
  cbn zeta. destruct (sent_log st !! c) as [x|] eqn:Hl.
  { left. split; [right; by eexists|].
    apply ServiceFacts.step_skip. rewrite Hl.
    rewrite bool_decide_eq_true_2 by (by eexists). by destruct (has_email info). }
  destruct info as [[|e es]|err].
  - left. split; [by left|]. apply ServiceFacts.step_skip. done.
  - right. exists e, es. split; [done|]. split; [done|].
    by apply ServiceFacts.step_attempt.
  - left. split; [by left|]. apply ServiceFacts.step_skip. done.
Qed.

Lemma pause_effects_sleeps k :
  submits (pause_effects bs k) = [] /\ writes (pause_effects bs k) = []
  /\ (sleeps (pause_effects bs k) = [] \/ sleeps (pause_effects bs k) = [3600%Z]).
Proof. unfold pause_effects. repeat case_decide; cbn; tauto. Qed.

Lemma step_processed st item :
  processed (process_country env bs atts total st item).1.1 = S (processed st).
Proof.
  destruct item as [c info].
  destruct (step_cases st c info) as [(_ & -> & _)|(e & es & _ & _ & H)]; [done|].
  destruct (smtp env (S (processed st)) e c); by destruct H as (-> & _).
Qed.

(** What a turn hands to the relay: nothing, or one message, to the
    first address of a country that is not in the log. *)
Lemma step_submits st c info :
  let s := process_country env bs atts total st (c, info) in
  submits s.1.2 = []
  \/ (sent_log st !! c = None
      /\ exists e, first_address (c, info) = Some (e, c) /\ submits s.1.2 = [(e, c)]).
Proof.
  cbn zeta. destruct (step_cases st c info) as [(_ & _ & H & _)|(e & es & -> & Hn & H)].
  - left. by rewrite <- ServiceFacts.submits_effects, H.
  - right. split; [done|]. exists e. split; [done|].
    rewrite <- ServiceFacts.submits_effects.
    destruct (pause_effects_sleeps (S (processed st))) as (Hp & _).
    destruct (smtp env (S (processed st)) e c); destruct H as (_ & -> & _).
    + change ([?a; ?b; ?d] ++ ?l) with ([a] ++ [b; d] ++ l).
      rewrite !ServiceFacts.submits_app, Hp. done.
    + change (?a :: ?l) with ([a] ++ l). rewrite ServiceFacts.submits_app, Hp. done.
    + done.
Qed.

Lemma step_mono st item :
  sent_log st ⊆ sent_log (process_country env bs atts total st item).1.1.
Proof.
  destruct item as [c info].
  destruct (ServiceFacts.step_log env bs atts total st c info)
    as [[-> _]|(e & es & _ & Hn & _ & -> & _)]; [done|].
  rewrite ServiceFacts.sent_state_log. by apply insert_subseteq.
Qed.

(** The messages of the loop follow the order of the artifact, each to
    the first address of its country, and none goes to a country that
    was in the log when the loop started. *)
Lemma loop_submits items : forall st,
  let l := loop env bs atts total items st in
  sublist (submits l.1.2) (omap first_address items)
  /\ forall e c, (e, c) ∈ submits l.1.2 -> sent_log st !! c = None.
Proof.
  induction items as [|[c info] rest IH]; intros st; cbn zeta.
  { rewrite ServiceFacts.loop_nil. cbn. split; [done|]. intros e c H. by apply elem_of_nil in H. }
  rewrite ServiceFacts.loop_cons. cbn zeta.
  pose proof (step_submits st c info) as Hs. cbn zeta in Hs.
  pose proof (step_mono st (c, info)) as Hm.
  set (s := process_country env bs atts total st (c, info)) in *.
  assert (Hhead : sublist (submits s.1.2) (omap first_address [(c, info)])
                  /\ forall e c', (e, c') ∈ submits s.1.2 -> sent_log st !! c' = None).
  { destruct Hs as [->|(Hn & e & Hf & ->)].
    - split; [apply sublist_nil_l|]. intros e c' H. by apply elem_of_nil in H.
    - cbn [omap list_omap]. rewrite Hf. split; [done|].
      intros e' c' H. apply list_elem_of_singleton in H. by injection H as -> ->. }
  destruct Hhead as [H1 H2].
  change ((c, info) :: rest) with ([(c, info)] ++ rest). rewrite omap_app.
  destruct (s.2) eqn:Hfl.
  - destruct (IH s.1.1) as [I1 I2]. cbn [fst snd]. rewrite ServiceFacts.submits_app. split.
    + by apply sublist_app.
    + intros e c' H. apply elem_of_app in H as [H|H]; [by eapply H2|].
      eapply lookup_weaken_None; [by eapply I2|done].
  - split; [by apply sublist_inserts_r|done].
  - split; [by apply sublist_inserts_r|done].
Qed.

(** Every write adds one entry and is followed by one wait of 60
    seconds. *)
Lemma loop_counts items : forall st,
  let l := loop env bs atts total items st in
  size (sent_log l.1.1) = size (sent_log st) + length (writes l.1.2)
  /\ length (filter (fun z => z = 60%Z) (sleeps l.1.2)) = length (writes l.1.2)
  /\ length (writes l.1.2) <= length (submits l.1.2)
  /\ Forall (fun z => z = 60%Z \/ z = 3600%Z) (sleeps l.1.2).
Proof.
  induction items as [|[c info] rest IH]; intros st; cbn zeta.
  { rewrite ServiceFacts.loop_nil. cbn. repeat split; try done; lia. }
  rewrite ServiceFacts.loop_cons. cbn zeta.
  pose proof (step_cases st c info) as Hs. cbn zeta in Hs.
  set (s := process_country env bs atts total st (c, info)) in *.
  assert (Hhead : size (sent_log s.1.1) = size (sent_log st) + length (writes s.1.2)
                  /\ length (filter (fun z => z = 60%Z) (sleeps s.1.2)) = length (writes s.1.2)
                  /\ length (writes s.1.2) <= length (submits s.1.2)
                  /\ Forall (fun z => z = 60%Z \/ z = 3600%Z) (sleeps s.1.2)).
  { rewrite <- ServiceFacts.writes_effects, <- ServiceFacts.sleeps_effects,
            <- ServiceFacts.submits_effects.
    destruct Hs as [(_ & -> & -> & _)|(e & es & _ & Hn & H)].
    { cbn. repeat split; try done; lia. }
    destruct (smtp env (S (processed st)) e c); destruct H as (-> & -> & _).
    - rewrite ServiceFacts.sent_state_log, (map_size_insert_None _ _ _ Hn).
      unfold pause_effects. repeat case_decide; cbn; (split; [lia|]);
        repeat split; try done; try lia;
        try (repeat (constructor; [lia|]); by constructor).
    - unfold pause_effects. repeat case_decide; cbn; (split; [lia|]);
        repeat split; try done; try lia;
        try (repeat (constructor; [lia|]); by constructor).
    - cbn. repeat split; try done; lia. }
  destruct Hhead as (H1 & H2 & H3 & H4).
  destruct (s.2) eqn:Hfl; try done.
  destruct (IH s.1.1) as (I1 & I2 & I3 & I4). cbn [fst snd].
  rewrite ServiceFacts.writes_app, ServiceFacts.submits_app.
  unfold sleeps in *. rewrite omap_app, filter_app, !length_app.
  repeat split; try lia. by apply Forall_app.
Qed.

Lemma loop_processed items : forall st,
  let l := loop env bs atts total items st in
  processed st <= processed l.1.1 <= processed st + length items
  /\ (l.2 = Next -> processed l.1.1 = processed st + length items)
  /\ (items <> [] -> processed st < processed l.1.1).
Proof.
  induction items as [|item rest IH]; intros st; cbn zeta.
  { rewrite ServiceFacts.loop_nil. cbn. split; [lia|]. split; [intros; lia|]. by intros []. }
  rewrite ServiceFacts.loop_cons. cbn zeta.
  pose proof (step_processed st item) as Hp.
  set (s := process_country env bs atts total st item) in *.
  destruct (s.2) eqn:Hfl.
  - destruct (IH s.1.1) as (I1 & I2 & _). cbn [fst snd length].
    split; [lia|]. split; [|intros _; lia]. intros H. specialize (I2 H). lia.
  - rewrite Hfl. cbn [length]. split; [lia|]. split; [done|intros _; lia].
  - rewrite Hfl. cbn [length]. split; [lia|]. split; [done|intros _; lia].
Qed.

(** The loop over two stretches of the artifact is the loop over the
    first and then, if that one was not left by an exception, the loop
    over the second. *)
Lemma loop_app l1 : forall l2 st,
  loop env bs atts total (l1 ++ l2) st =
    let r1 := loop env bs atts total l1 st in
    match r1.2 with
    | Next =>
        let r2 := loop env bs atts total l2 r1.1.1 in
        (r2.1.1, r1.1.2 ++ r2.1.2, r2.2)
    | _ => r1
    end.
Proof.
  induction l1 as [|item l1 IH]; intros l2 st; cbn zeta.
  { rewrite ServiceFacts.loop_nil. cbn [app fst snd].
    by destruct (loop env bs atts total l2 st) as [[? ?] ?]. }
  cbn [app]. rewrite !ServiceFacts.loop_cons. cbn zeta.
  destruct (process_country env bs atts total st item) as [[s1 ev1] fl] eqn:Hs.
  cbn [fst snd]. destruct fl; cbn [fst snd]; try done.
  rewrite IH. cbn zeta.
  destruct (loop env bs atts total l1 s1) as [[s2 ev2] fl2]. cbn [fst snd].
  destruct fl2; cbn [fst snd]; try done. by rewrite app_assoc.
Qed.

(** With a batch size of zero the first attempt is the last. *)
Lemma loop_zero_batch items : forall st,
  bs = 0%Z -> length (submits (loop env bs atts total items st).1.2) <= 1.
Proof.
  intros st Hbs. revert st.
  induction items as [|[c info] rest IH]; intros st.
  { rewrite ServiceFacts.loop_nil. cbn. lia. }
  rewrite ServiceFacts.loop_cons. cbn zeta.
  pose proof (step_cases st c info) as Hs. cbn zeta in Hs.
  pose proof (step_submits st c info) as Hsub. cbn zeta in Hsub.
  set (s := process_country env bs atts total st (c, info)) in *.
  assert (Hone : length (submits s.1.2) <= 1).
  { destruct Hsub as [->|(_ & e & _ & ->)]; cbn; lia. }
  destruct Hs as [(_ & _ & He & ->)|(e & es & _ & _ & H)].
  - cbn [fst snd]. rewrite ServiceFacts.submits_app, <- (ServiceFacts.submits_effects s.1.2), He.
    cbn. apply IH.
  - assert (Hfl : s.2 <> Next).
    { destruct (smtp env (S (processed st)) e c); destruct H as (_ & _ & ->); try done;
        unfold pause_flow; by rewrite decide_True. }
    destruct (s.2); done.
Qed.

(** X20.  The long pause is taken in a turn exactly when the country
    was attempted (it is not in the log and has an address), the send
    was not interrupted, and the count of processed countries is a
    multiple of the batch size, which is not zero. *)
Theorem long_pause_exactly_after_attempts (st : state) (c : string) (info : EmailResult) :
  3600%Z ∈ sleeps (process_country env bs atts total st (c, info)).1.2 <->
  sent_log st !! c = None
  /\ (exists e es, info = Found (e :: es) /\ smtp env (S (processed st)) e c <> Interrupted)
  /\ bs <> 0%Z /\ (Z.of_nat (S (processed st)) mod bs)%Z = 0%Z.
Proof.
  cbn zeta. rewrite <- ServiceFacts.sleeps_effects.
  destruct (step_cases st c info) as [(Hskip & _ & -> & _)|(e & es & -> & Hn & H)].
  - cbn. rewrite elem_of_nil. split; [done|]. intros (Hn & (e & es & -> & _) & _).
    destruct Hskip as [Hf|[x Hx]]; [done|congruence].
  - assert (Hhere : (exists e' es', Found (e :: es) = Found (e' :: es')
                       /\ smtp env (S (processed st)) e' c <> Interrupted)
                    <-> smtp env (S (processed st)) e c <> Interrupted).
    { split; [by intros (e' & es' & [= <- <-] & ?)|]. intros ?. by exists e, es. }
    rewrite Hhere. clear Hhere.
    destruct (smtp env (S (processed st)) e c) eqn:Hd; destruct H as (_ & -> & _);
      unfold pause_effects; repeat case_decide; cbn;
      rewrite ?elem_of_cons, ?elem_of_nil; split;
      try (intros [?|[?|?]]; try done; try lia);
      try (intros [?|?]; try done; try lia);
      try (intros []; fail);
      try (intros (_ & ? & ? & ?); try done; try lia);
      try (intros _; repeat split; done);
      try tauto.
Qed.

End turns.

(** *** Attachments *)

Lemma add_attachments_names env atts : (add_attachments env atts).1 = attachable env atts.
Proof.
  induction atts as [|p ps IH]; [done|]. cbn [add_attachments attachable omap list_omap].
  fold (attachable env ps). rewrite <- IH.
  destruct (add_attachments env ps) as [names evs]. cbn [fst].
  by destruct (attach env p).
Qed.

Lemma warnings_app evs1 evs2 : warnings (evs1 ++ evs2) = warnings evs1 ++ warnings evs2.
Proof. apply omap_app. Qed.

Lemma add_attachments_warnings env atts :
  warnings (add_attachments env atts).2
  = map (fun p => "Failed to add attachment: " +:+ p) (left_out env atts).
Proof.
  induction atts as [|p ps IH]; [done|]. cbn [add_attachments left_out List.filter].
  fold (left_out env ps). destruct (add_attachments env ps) as [names evs]. cbn [snd] in IH.
  destruct (attach env p); cbn [add_attachment snd]; rewrite ?warnings_app, IH; done.
Qed.

(** X11.  A file that is missing or cannot be read does not stop a
    send.  Whatever the attachment paths are, [send_email] goes on to
    its one submission of the message, which carries the files that
    could be attached, in the order of their paths, and it logs one
    warning for each path it had to leave out, in that order. *)
Theorem unreadable_attachments_left_out (env : Env) (k : nat) (r c : string)
    (atts : list string) :
  let names :=
    omap (fun p => match attach env p with Attached n => Some n | _ => None end) atts in
  effects (send_email env k r c atts).2 = [Submit r c names]
  /\ warnings (send_email env k r c atts).2
     = map (fun p => "Failed to add attachment: " +:+ p) (left_out env atts)
  /\ length names + length (left_out env atts) = length atts.
Proof.
  cbn zeta. split; [|split].
  - by rewrite ServiceFacts.send_email_effects, add_attachments_names.
  - pose proof (add_attachments_warnings env atts) as H. unfold send_email.
    destruct (add_attachments env atts) as [names evs]. cbn [snd] in H.
    destruct (smtp env k r c); cbn [snd]; rewrite warnings_app, H; cbn; by rewrite app_nil_r.
  - unfold left_out. induction atts as [|p ps IH]; [done|].
    cbn [omap list_omap List.filter]. destruct (attach env p); cbn [length]; cbn in IH; lia.
Qed.

Example one_attachment_missing :
  let env := {| attach := fun p => if String.eqb p "RefugeeTravelDocument.pdf"
                                   then Attached "RefugeeTravelDocument.pdf" else NoSuchFile;
                smtp := fun _ _ _ => Delivered;
                now := fun _ => "2024-05-01T10:01:00";
                fs_write := fun _ => Written |} in
  let s := send_email env 1 "visa@freedonia.gov" "Freedonia"
             ["cover.pdf"; "RefugeeTravelDocument.pdf"] in
  s.1 = Some true
  /\ effects s.2 = [Submit "visa@freedonia.gov" "Freedonia" ["RefugeeTravelDocument.pdf"]]
  /\ warnings s.2 = ["Failed to add attachment: cover.pdf"].
Proof. by vm_compute. Qed.

(** *** Whole runs *)

Section runs.
Variables (env : Env) (path : string) (data : file Artifact) (bs : Z)
          (atts : list string) (log_file : file SendLog).

Lemma run_submits :
  let r := process_embassies env path data bs atts log_file in
  sublist (submits (trace r)) (omap first_address (load_embassy_data path data).1)
  /\ forall e c, (e, c) ∈ submits (trace r) -> (load_sent_log log_file).1 !! c = None.
Proof.
  cbn zeta.
  destruct (ServiceFacts.process_embassies_loop env path data bs atts log_file) as (_ & _ & H).
  rewrite <- ServiceFacts.submits_effects, H, ServiceFacts.submits_effects.
  apply loop_submits.
Qed.

(** X12.  A run never hands a message to the relay for a country that
    is in the send log it loaded. *)
Theorem never_resends_logged (e c : string) :
  (e, c) ∈ submits (trace (process_embassies env path data bs atts log_file)) ->
  (load_sent_log log_file).1 !! c = None.
Proof. apply run_submits. Qed.

(** X13.  The messages of a run follow the order of the artifact, and
    each goes to the first address of its country: no country of the
    artifact is reordered, and no later address is ever used. *)
Theorem submits_follow_artifact :
  sublist (submits (trace (process_embassies env path data bs atts log_file)))
          (omap first_address (load_embassy_data path data).1).
Proof. apply run_submits. Qed.

Lemma first_addresses_countries (items : Artifact) :
  sublist (omap first_address items).*2 items.*1.
Proof.
  induction items as [|[c info] items IH]; [done|].
  cbn [omap list_omap fmap list_fmap fst]. unfold first_address at 1. cbn [fst snd].
  destruct info as [[|e es]|err]; cbn; by constructor.
Qed.

Lemma run_one_per_country :
  NoDup (load_embassy_data path data).1.*1 ->
  NoDup (submits (trace (process_embassies env path data bs atts log_file))).*2.
Proof.
  intros Hnd. eapply sublist_NoDup; [exact Hnd|].
  etrans; [|apply first_addresses_countries].
  apply fmap_sublist, run_submits.
Qed.

(** X14.  When the keys of the artifact are distinct, as the keys of a
    JSON object are once loaded, a run hands at most one message to
    the relay per country. *)
Theorem one_message_per_country :
  NoDup (load_embassy_data path data).1.*1 ->
  NoDup (submits (trace (process_embassies env path data bs atts log_file))).*2.
Proof. apply run_one_per_country. Qed.

(** X15.  The send log grows by one entry with every write to its
    file, and by nothing else; every write is followed by one wait of
    60 seconds; there are no more writes than messages; and a run
    takes no pause other than the ones of 60 and of 3600 seconds. *)
Theorem log_grows_with_writes :
  let r := process_embassies env path data bs atts log_file in
  size (sent_log (final r)) = size (load_sent_log log_file).1 + length (writes (trace r))
  /\ length (filter (fun z => z = 60%Z) (sleeps (trace r))) = length (writes (trace r))
  /\ length (writes (trace r)) <= length (submits (trace r))
  /\ Forall (fun z => z = 60%Z \/ z = 3600%Z) (sleeps (trace r)).
Proof.
  cbn zeta.
  destruct (ServiceFacts.process_embassies_loop env path data bs atts log_file) as (H1 & _ & H3).
  rewrite <- ServiceFacts.writes_effects, <- ServiceFacts.sleeps_effects,
          <- ServiceFacts.submits_effects, H3, H1,
          ServiceFacts.writes_effects, ServiceFacts.sleeps_effects,
          ServiceFacts.submits_effects.
  apply (loop_counts env bs atts _ _
           {| sent_log := (load_sent_log log_file).1; disk := log_file; processed := 0 |}).
Qed.

(** X16.  The count of processed countries never passes the size of
    the artifact, and it reaches it whenever the loop is not left by
    an exception. *)
Theorem processed_counts_turns :
  let r := process_embassies env path data bs atts log_file in
  processed (final r) <= length (load_embassy_data path data).1
  /\ (ended r = Next -> processed (final r) = length (load_embassy_data path data).1).
Proof.
  cbn zeta.
  destruct (ServiceFacts.process_embassies_loop env path data bs atts log_file) as (H1 & H2 & _).
  rewrite H1, H2.
  destruct (loop_processed env bs atts (length (load_embassy_data path data).1)
              (load_embassy_data path data).1
              {| sent_log := (load_sent_log log_file).1; disk := log_file; processed := 0 |})
    as (K1 & K2 & _).
  cbn [processed] in K1, K2. split; [lia|]. intros H. by rewrite (K2 H).
Qed.

(** X17.  When no write to the file fails, the file a run leaves reads
    back as the send log the run ended with: the next run starts from
    what this one knew. *)
Theorem file_reads_back_as_log :
  (forall k, fs_write env k = Written) ->
  let r := process_embassies env path data bs atts log_file in
  (load_sent_log (disk (final r))).1 = sent_log (final r).
Proof.
  intros Hw. cbn zeta.
  destruct (ServiceFacts.process_embassies_loop env path data bs atts log_file) as (H1 & _ & _).
  rewrite H1. by apply ServiceFacts.loop_synced.
Qed.

End runs.

(** X18.  With a batch size of zero a run hands at most one message to
    the relay: the check after the first attempt raises and ends the
    loop. *)
Theorem zero_batch_size_one_attempt (env : Env) (path : string) (data : file Artifact)
    (atts : list string) (log_file : file SendLog) :
  length (submits (trace (process_embassies env path data 0 atts log_file))) <= 1.
Proof.
  destruct (ServiceFacts.process_embassies_loop env path data 0 atts log_file) as (_ & _ & H).
  rewrite <- ServiceFacts.submits_effects, H, ServiceFacts.submits_effects.
  by apply loop_zero_batch.
Qed.

(** X19.  A run against an artifact that is absent or cannot be read
    treats it as empty: it processes no country, hands nothing to the
    relay, writes nothing, and leaves the send log and its file as
    they were. *)
Theorem run_without_artifact (env : Env) (path : string) (bs : Z) (atts : list string)
    (log_file : file SendLog) (e : string) :
  let quiet (r : run) :=
    effects (trace r) = [] /\ processed (final r) = 0 /\ ended r = Next
    /\ sent_log (final r) = (load_sent_log log_file).1 /\ disk (final r) = log_file in
  quiet (process_embassies env path Missing bs atts log_file)
  /\ quiet (process_embassies env path (Unreadable e) bs atts log_file)
  /\ quiet (process_embassies env path (Holds []) bs atts log_file).
Proof.
  cbn zeta. unfold process_embassies. cbn [load_embassy_data loop length].
  pose proof (ServiceFacts.load_sent_log_effects log_file) as H.
  destruct (load_sent_log log_file) as [sent evl]. cbn [fst snd final trace ended] in *.
  repeat split; try done; cbn; rewrite ?ServiceFacts.effects_app, H; done.
Qed.

(** X21.  An interrupt during a send ends the loop there: the message
    in flight is the last thing the loop does, no later country is
    touched, and the send log and its file are as the countries before
    left them. *)
Theorem interrupt_stops_loop (env : Env) (bs : Z) (atts : list string) (total : nat)
    (pre post : Artifact) (st : state) (c e : string) (es : list string) :
  let r1 := loop env bs atts total pre st in
  r1.2 = Next ->
  sent_log r1.1.1 !! c = None ->
  smtp env (S (processed r1.1.1)) e c = Interrupted ->
  let r := loop env bs atts total (pre ++ (c, Found (e :: es)) :: post) st in
  r.2 = KeyboardInterrupt
  /\ sent_log r.1.1 = sent_log r1.1.1 /\ disk r.1.1 = disk r1.1.1
  /\ effects r.1.2 = effects r1.1.2 ++ [Submit e c (attachable env atts)].
Proof.
  cbn zeta. intros Hfl Hn Hi. rewrite loop_app. cbn zeta. rewrite Hfl.
  rewrite ServiceFacts.loop_cons. cbn zeta.
  pose proof (ServiceFacts.step_attempt env bs atts total _ c e es Hn) as H. cbn zeta in H.
  rewrite Hi in H. destruct H as (H1 & H2 & H3). rewrite H3. cbn [fst snd].
  rewrite H3, H1, ServiceFacts.effects_app, H2, add_attachments_names. done.
Qed.

(** X22.  A run that is cut after any number of countries loses
    nothing it wrote: when no write fails, a later run from the file
    that was left hands no message to the relay for a country that was
    in the send log at the cut. *)
Theorem resume_skips_what_was_sent (env1 env2 : Env) (path : string)
    (data : file Artifact) (bs1 bs2 : Z) (atts1 atts2 : list string) (total : nat)
    (done_so_far : Artifact) (log_file : file SendLog) (e c : string) :
  (forall k, fs_write env1 k = Written) ->
  let cut :=
    (loop env1 bs1 atts1 total done_so_far
       {| sent_log := (load_sent_log log_file).1; disk := log_file; processed := 0 |}).1.1 in
  is_Some (sent_log cut !! c) ->
  (e, c) ∉ submits (trace (process_embassies env2 path data bs2 atts2 (disk cut))).
Proof.
  intros Hw. cbn zeta. intros [x Hx] Hin.
  apply run_submits in Hin.
  pose proof (ServiceFacts.loop_synced env1 bs1 atts1 total done_so_far
                {| sent_log := (load_sent_log log_file).1; disk := log_file; processed := 0 |}
                Hw eq_refl) as Hs.
  cbn zeta in Hs. rewrite Hs in Hin. congruence.
Qed.

Lemma never_resends_logged_witness :
  ("visa@freedonia.gov", "Freedonia")
    ∈ submits (trace (process_embassies env_up data_path (Holds artifact3) 10 pdf
                        (Holds {["Sylvania" := ruritania_entry]})))
  /\ (load_sent_log (Holds {["Sylvania" := ruritania_entry]})).1 !! "Freedonia" = None.
Proof.
  assert (H : ("visa@freedonia.gov", "Freedonia")
              ∈ submits (trace (process_embassies env_up data_path (Holds artifact3) 10 pdf
                                  (Holds {["Sylvania" := ruritania_entry]})))).
  { refine (bool_decide_eq_true_1 _ _). vm_compute. reflexivity. }
  split; [exact H|].
  exact (never_resends_logged env_up data_path (Holds artifact3) 10 pdf _ _ _ H).
Defined.

Lemma one_message_per_country_witness :
  NoDup (load_embassy_data data_path (Holds artifact3)).1.*1
  /\ NoDup (submits (trace (process_embassies env_down data_path (Holds artifact3) 10 pdf
                              Missing))).*2.
Proof.
  assert (H : NoDup (load_embassy_data data_path (Holds artifact3)).1.*1).
  { refine (bool_decide_eq_true_1 _ _). vm_compute. reflexivity. }
  split; [exact H|].
  exact (one_message_per_country env_down data_path (Holds artifact3) 10 pdf Missing H).
Defined.

Lemma file_reads_back_as_log_witness :
  (forall k, fs_write env_up k = Written)
  /\ (let r := process_embassies env_up data_path (Holds artifact3) 10 pdf Missing in
      (load_sent_log (disk (final r))).1 = sent_log (final r)).
Proof.
  assert (H : forall k, fs_write env_up k = Written) by (intros; reflexivity).
  split; [exact H|].
  exact (file_reads_back_as_log env_up data_path (Holds artifact3) 10 pdf Missing H).
Defined.

Lemma interrupt_stops_loop_witness :
  (loop env_cut 10 pdf 3 [freedonia] state0).2 = Next
  /\ sent_log (loop env_cut 10 pdf 3 [freedonia] state0).1.1 !! "Sylvania" = None
  /\ smtp env_cut 2 "embassy@sylvania.org" "Sylvania" = Interrupted
  /\ (let r := loop env_cut 10 pdf 3 artifact3 state0 in
      r.2 = KeyboardInterrupt
      /\ sent_log r.1.1 = sent_log (loop env_cut 10 pdf 3 [freedonia] state0).1.1).
Proof.
  assert (H1 : (loop env_cut 10 pdf 3 [freedonia] state0).2 = Next) by (vm_compute; reflexivity).
  assert (H2 : sent_log (loop env_cut 10 pdf 3 [freedonia] state0).1.1 !! "Sylvania" = None)
    by (vm_compute; reflexivity).
  assert (H3 : smtp env_cut (S (processed (loop env_cut 10 pdf 3 [freedonia] state0).1.1))
                 "embassy@sylvania.org" "Sylvania" = Interrupted) by (vm_compute; reflexivity).
  split; [exact H1|]. split; [exact H2|]. split; [reflexivity|].
  destruct (interrupt_stops_loop env_cut 10 pdf 3 [freedonia] [ruritania] state0
              "Sylvania" "embassy@sylvania.org" [] H1 H2 H3) as (K1 & K2 & _).
  split; [exact K1|exact K2].
Defined.

Lemma resume_skips_what_was_sent_witness :
  (forall k, fs_write env_up k = Written)
  /\ is_Some (sent_log (loop env_up 10 pdf 3 [freedonia]
                          {| sent_log := (load_sent_log Missing).1; disk := Missing;
                             processed := 0 |}).1.1 !! "Freedonia")
  /\ (("visa@freedonia.gov", "Freedonia")
        ∉ submits (trace (process_embassies env_up data_path (Holds artifact3) 10 pdf
                            (disk (loop env_up 10 pdf 3 [freedonia]
                                     {| sent_log := (load_sent_log Missing).1; disk := Missing;
                                        processed := 0 |}).1.1)))).
Proof.
  assert (H1 : forall k, fs_write env_up k = Written) by (intros; reflexivity).
  assert (H2 : is_Some (sent_log (loop env_up 10 pdf 3 [freedonia]
                          {| sent_log := (load_sent_log Missing).1; disk := Missing;
                             processed := 0 |}).1.1 !! "Freedonia")).
  { exists freedonia_entry. vm_compute. reflexivity. }
  split; [exact H1|]. split; [exact H2|].
  exact (resume_skips_what_was_sent env_up env_up data_path (Holds artifact3) 10 10 pdf pdf 3
           [freedonia] Missing "visa@freedonia.gov" "Freedonia" H1 H2).
Defined.

(** *** From the scraper to the sender *)

(** X23.  Over an artifact as the scraper writes it, a run hands at
    most one message to the relay per country, and every message goes
    to a country of the directory, at the first address the scraper
    stored for it. *)
Theorem scraped_artifact_one_message (web : nat -> string -> Scrapper.response)
    (cs : list Scrapper.country) (env : Env) (path : string) (bs : Z)
    (atts : list string) (log_file : file SendLog) :
  let data := Scrapper.embassy_data (Scrapper.scrape_all_countries web cs Scrapper.EmbassyScraper) in
  let r := process_embassies env path (Holds data) bs atts log_file in
  NoDup (submits (trace r)).*2
  /\ forall e c, (e, c) ∈ submits (trace r) ->
       c ∈ Scrapper.name <$> cs /\ exists es, (c, Found (e :: es)) ∈ data.
Proof.
  cbn zeta. unfold Scrapper.scrape_all_countries. cbn [Scrapper.embassy_data].
  set (data := Scrapper.embassy_data (fold_left (Scrapper.scrape_country web) cs Scrapper.EmbassyScraper)).
  destruct (ScrapperMore.scrape_loop_keys web cs Scrapper.EmbassyScraper) as [H1 H2].
  fold data in H1, H2. split.
  - apply run_one_per_country. cbn [load_embassy_data fst]. apply H1. constructor.
  - intros e c Hin.
    destruct (run_submits env path (Holds data) bs atts log_file) as [Hsub _].
    cbn [load_embassy_data fst] in Hsub.
    apply (fun H => elem_of_sublist _ _ _ H Hsub) in Hin.
    apply list_elem_of_omap in Hin as ([c' info] & Hitem & Hf).
    unfold first_address in Hf. cbn [fst snd] in Hf.
    destruct info as [[|e' es]|err]; try done. injection Hf as -> ->.
    split; [|by exists es].
    assert (Hk : c ∈ data.*1).
    { apply list_elem_of_fmap. by exists (c, Found (e :: es)). }
    apply H2 in Hk as [Hk|Hk]; [by apply elem_of_nil in Hk|done].
Qed.

(** *** The entry point *)

Lemma main_cases env user pw dir embassy pdf_exists log_file :
  let o := main env user pw dir embassy pdf_exists log_file in
  let ready := is_set user && is_set pw && exists_on_disk embassy && pdf_exists in
  (ready = true ->
     exit_code o = 0%Z
     /\ job o = Some (process_embassies env
                       (path_join (path_join (path_join dir "..") "emailScrapper")
                                  "embassy_emails.json")
                       embassy 10 [path_join dir "RefugeeTravelDocument.pdf"] log_file))
  /\ (ready = false ->
      job o = None
      /\ exit_code o = (if is_set user && is_set pw then 1%Z else 0%Z)).
Proof.
  cbn zeta. unfold main, EmbassyEmailer.
  destruct (is_set user), (is_set pw), (exists_on_disk embassy), pdf_exists; cbn; by split.
Qed.

(** X24.  The entry point starts the send job, with a batch size of
    ten and the one attachment, exactly when both credentials are set
    and not empty and both input files exist; otherwise it hands
    nothing to the relay.  It exits with status 1 when the credentials
    are fine and a file is missing, and with status 0 when a
    credential is missing. *)
Theorem main_runs_only_when_ready (env : Env) (user pw : option string) (dir : string)
    (embassy : file Artifact) (pdf_exists : bool) (log_file : file SendLog) :
  let o := main env user pw dir embassy pdf_exists log_file in
  let ready := is_set user && is_set pw && exists_on_disk embassy && pdf_exists in
  (is_Some (job o) <-> ready = true)
  /\ (submitted o <> [] -> ready = true)
  /\ (exit_code o = 1%Z <->
      is_set user && is_set pw = true /\ (exists_on_disk embassy = false \/ pdf_exists = false))
  /\ (is_set user && is_set pw = false -> exit_code o = 0%Z /\ submitted o = []).
Proof.
  cbn zeta. unfold submitted, main, EmbassyEmailer.
  destruct (is_set user), (is_set pw), (exists_on_disk embassy), pdf_exists;
    cbn [negb orb andb job exit_code];
    (split; [split; [try (by intros [? ?]); done|intros; try done; by eexists]|]);
    (split; [intros; try done|]);
    (split; [split; [intros; try lia; try (split; [done|]); tauto
                    |intros (? & [?|?]); try done; try lia]|]);
    intros; try done.
Qed.

Example main_without_password :
  let o := main env_up (Some "mason@example.org") (Some "") "/srv/rtd/emailService"
             (Holds artifact3) true Missing in
  exit_code o = 0%Z /\ job o = None
  /\ stdout o = ["Starting Embassy Email Service...";
                 "Critical error: EMAIL_USER and EMAIL_PASSWORD environment variables must be set!"].
Proof. repeat split; reflexivity. Qed.

Example main_without_artifact :
  let o := main env_up (Some "mason@example.org") (Some "secret") "/srv/rtd/emailService"
             Missing true Missing in
  exit_code o = 1%Z /\ job o = None
  /\ stdout o = ["Starting Embassy Email Service...";
                 "Error: /srv/rtd/emailService/../emailScrapper/embassy_emails.json not found!"].
Proof. repeat split; reflexivity. Qed.

End ServiceMore.

(** ** Runs of emailService/main.py, turn by turn *)

Module ServiceRuns.
Import Service Readings ServiceSamples MoreServiceSamples ServiceFacts ServiceMore.

Lemma filter_country_none (c : string) (l : list (string * string)) :
  (forall p, p ∈ l -> p.2 <> c) -> filter (fun p => p.2 = c) l = [].
Proof.
  induction l as [|p l IH]; intros H; [done|].
  rewrite filter_cons. case_decide as E.
  - destruct (H p); [apply list_elem_of_here|done].
  - apply IH. intros q Hq. apply H. by apply list_elem_of_further.
Qed.

Section turns.
Variables (env : Env) (bs : Z) (atts : list string) (total : nat).

(** The loop hands messages to the relay for countries of its items
    only. *)
Lemma loop_keys items st p :
  p ∈ submits (loop env bs atts total items st).1.2 -> p.2 ∈ items.*1.
Proof.
  intros Hp. destruct (loop_submits env bs atts total items st) as [Hs _].
  eapply elem_of_sublist; [|apply first_addresses_countries].
  apply list_elem_of_fmap. exists p. split; [done|].
  eapply elem_of_sublist; [exact Hp|exact Hs].
Qed.

(** The loop adds entries for countries of its items only. *)
Lemma loop_new_keys items st c :
  sent_log st !! c = None -> c ∉ items.*1 ->
  sent_log (loop env bs atts total items st).1.1 !! c = None.
Proof.
  intros Hn Hc. destruct (loop_invariant env bs atts total items st) as (_ & _ & K).
  destruct (sent_log (loop env bs atts total items st).1.1 !! c) as [x|] eqn:E; [|done].
  destruct (K c x E Hn) as (es & k & Hin & _). destruct Hc.
  apply list_elem_of_fmap. by exists (c, Found (email x :: es)).
Qed.

(** The file never holds an entry that the log in memory lacks, and a
    turn keeps what the file holds unless its write is cut short. *)
Lemma step_disk st item :
  (load_sent_log (disk st)).1 ⊆ sent_log st ->
  let s := process_country env bs atts total st item in
  (load_sent_log (disk s.1.1)).1 ⊆ sent_log s.1.1
  /\ ((forall k e m, fs_write env k <> WriteRaised e (Some m)) ->
      (load_sent_log (disk st)).1 ⊆ (load_sent_log (disk s.1.1)).1).
Proof.
  intros H. cbn zeta. destruct item as [c info].
  destruct (step_log env bs atts total st c info)
    as [[-> _]|(e & es & _ & Hn & _ & -> & _)]; [done|].
  unfold sent_state. cbn [sent_log disk].
  set (log' := <[c := _]> (sent_log st)).
  assert (Hsub : sent_log st ⊆ log') by (by apply insert_subseteq).
  destruct (fs_write env (S (processed st))) as [|e' [m|]] eqn:Ew; cbn.
  - split; [done|]. intros _. by etrans.
  - split; [apply map_empty_subseteq|]. intros Hw. by destruct (Hw _ _ _ Ew).
  - split; [by etrans|done].
Qed.

Lemma loop_disk items : forall st,
  (load_sent_log (disk st)).1 ⊆ sent_log st ->
  let l := loop env bs atts total items st in
  (load_sent_log (disk l.1.1)).1 ⊆ sent_log l.1.1
  /\ ((forall k e m, fs_write env k <> WriteRaised e (Some m)) ->
      (load_sent_log (disk st)).1 ⊆ (load_sent_log (disk l.1.1)).1).
Proof.
  induction items as [|item rest IH]; intros st H; cbn zeta.
  - by rewrite loop_nil.
  - rewrite loop_cons. cbn zeta. destruct (step_disk st item H) as [H1 H2].
    destruct (process_country env bs atts total st item).2 eqn:E; [|done|done].
    cbn [fst snd]. destruct (IH _ H1) as [K1 K2]. split; [done|].
    intros Hw. etrans; [by apply H2|by apply K2].
Qed.

(** When the batch size is not zero and no send is interrupted, the
    loop reaches the end of its items. *)
Lemma loop_reaches items : forall st,
  bs <> 0%Z ->
  (forall k r c, k <= processed st + length items -> smtp env k r c <> Interrupted) ->
  (loop env bs atts total items st).2 = Next.
Proof.
  induction items as [|[c info] rest IH]; intros st Hbs Hi; [done|].
  rewrite loop_cons. cbn zeta.
  pose proof (step_processed env bs atts total st (c, info)) as Hp.
  assert (Hs : (process_country env bs atts total st (c, info)).2 = Next).
  { destruct (step_cases env bs atts total st c info) as [(_ & _ & _ & ->)|(e & es & _ & _ & H)];
      [done|].
    pose proof (Hi (S (processed st)) e c) as Hk. cbn [length] in Hk.
    destruct (smtp env (S (processed st)) e c).
    - destruct H as (_ & _ & ->). unfold pause_flow. by rewrite decide_False.
    - destruct H as (_ & _ & ->). unfold pause_flow. by rewrite decide_False.
    - destruct Hk; [lia|done]. }
  rewrite Hs. cbn [fst snd]. apply IH; [done|].
  intros k r c' Hk. apply Hi. rewrite Hp in Hk. cbn [length]. lia.
Qed.
End turns.

(** A run over an artifact in which the country [c], with first
    address [e], comes after the countries [pre] and before the
    countries [post], when the loop gets to [c]: the run is the loop
    over [pre], the turn of [c], and, unless that turn raises, the
    loop over [post]. *)
Lemma run_turn (env : Env) (path : string) (bs : Z) (atts : list string)
    (log_file : file SendLog) (pre post : Artifact) (c e : string) (es : list string) :
  let data := pre ++ (c, Found (e :: es)) :: post in
  let st0 := {| sent_log := (load_sent_log log_file).1; disk := log_file; processed := 0 |} in
  let l1 := loop env bs atts (length data) pre st0 in
  let s := process_country env bs atts (length data) l1.1.1 (c, Found (e :: es)) in
  let l2 := loop env bs atts (length data) post s.1.1 in
  let r := process_embassies env path (Holds data) bs atts log_file in
  NoDup data.*1 ->
  (load_sent_log log_file).1 !! c = None ->
  l1.2 = Next ->
  (processed l1.1.1 = length pre /\ sent_log l1.1.1 !! c = None)
  /\ ((c ∉ pre.*1) /\ (c ∉ post.*1))
  /\ (s.2 = Next ->
        final r = l2.1.1 /\ ended r = l2.2
        /\ effects (trace r) = effects l1.1.2 ++ effects s.1.2 ++ effects l2.1.2)
  /\ (s.2 <> Next ->
        final r = s.1.1 /\ ended r = s.2
        /\ effects (trace r) = effects l1.1.2 ++ effects s.1.2).
Proof.
  intros data st0 l1 s l2 r Hnd Hn Hr.
  assert (Hk : (c ∉ pre.*1) /\ (c ∉ post.*1)).
  { unfold data in Hnd. rewrite fmap_app, fmap_cons in Hnd. cbn [fst] in Hnd.
    apply NoDup_app in Hnd as (_ & Hd & Hp). apply NoDup_cons in Hp as [Hp _].
    split; [|done]. intros Hc. apply (Hd c Hc). apply list_elem_of_here. }
  split; [|split; [done|]].
  - split.
    + destruct (loop_processed env bs atts (length data) pre st0) as (_ & H & _).
      fold l1 in H. by rewrite (H Hr).
    + by apply loop_new_keys; [|apply Hk].
  - destruct (process_embassies_loop env path (Holds data) bs atts log_file) as (H1 & H2 & H3).
    cbn [load_embassy_data fst] in H1, H2, H3. fold r st0 in H1, H2, H3.
    assert (E : loop env bs atts (length data) data st0
                = match s.2 with
                  | Next => (l2.1.1, l1.1.2 ++ s.1.2 ++ l2.1.2, l2.2)
                  | _ => (s.1.1, l1.1.2 ++ s.1.2, s.2)
                  end).
    { unfold data at 2. rewrite loop_app. cbn zeta. fold l1. rewrite Hr. cbn [fst snd].
      rewrite loop_cons. cbn zeta. fold s.
      destruct s.2 eqn:Es; cbn [fst snd]; rewrite ?Es; done. }
    rewrite E in H1, H2, H3. split.
    + intros Hs. rewrite Hs in H1, H2, H3. cbn [fst snd] in H1, H2, H3.
      by rewrite H3, !effects_app.
    + intros Hs. destruct s.2; [done| |]; cbn [fst snd] in H1, H2, H3;
        by rewrite H3, effects_app.
Qed.

(** In such a run exactly one message is handed to the relay for
    [c], addressed to [e]. *)
Lemma run_turn_submits (env : Env) (path : string) (bs : Z) (atts : list string)
    (log_file : file SendLog) (pre post : Artifact) (c e : string) (es : list string) :
  let data := pre ++ (c, Found (e :: es)) :: post in
  let st0 := {| sent_log := (load_sent_log log_file).1; disk := log_file; processed := 0 |} in
  NoDup data.*1 ->
  (load_sent_log log_file).1 !! c = None ->
  (loop env bs atts (length data) pre st0).2 = Next ->
  filter (fun p => p.2 = c)
    (submits (trace (process_embassies env path (Holds data) bs atts log_file)))
  = [(e, c)].
Proof.
  intros data st0 Hnd Hn Hr.
  destruct (run_turn env path bs atts log_file pre post c e es Hnd Hn Hr)
    as ((Hp & Hc) & (Hpre & Hpost) & HN & HE).
  fold data st0 in Hp, Hc, HN, HE.
  set (r := process_embassies env path (Holds data) bs atts log_file) in *.
  set (l1 := loop env bs atts (length data) pre st0) in *.
  set (s := process_country env bs atts (length data) l1.1.1 (c, Found (e :: es))) in *.
  set (l2 := loop env bs atts (length data) post s.1.1) in *.
  destruct (turn_first_address env bs atts (length data) l1.1.1 c e es Hc) as [Hs _].
  fold s in Hs.
  assert (F1 : filter (fun p => p.2 = c) (submits l1.1.2) = []).
  { apply filter_country_none. intros p Hin Hq. apply Hpre. rewrite <- Hq. by eapply loop_keys. }
  assert (F2 : filter (fun p => p.2 = c) (submits l2.1.2) = []).
  { apply filter_country_none. intros p Hin Hq. apply Hpost. rewrite <- Hq. by eapply loop_keys. }
  rewrite <- submits_effects.
  assert (Hcase : s.2 = Next \/ s.2 <> Next) by (destruct s.2; [by left|by right..]).
  destruct Hcase as [E|E].
  - destruct (HN E) as (_ & _ & ->).
    rewrite !submits_app, !submits_effects, !filter_app, F1, F2, Hs. cbn [app].
    rewrite filter_cons, decide_True by done. done.
  - destruct (HE E) as (_ & _ & ->).
    rewrite !submits_app, !submits_effects, !filter_app, F1, Hs. cbn [app].
    rewrite filter_cons, decide_True by done. done.
Qed.

(** What a run leaves in the file: no entry that its log lacks, and,
    unless one of its writes is cut short, every entry that the file
    held when the run began. *)
Lemma run_disk (env : Env) (path : string) (data : file Artifact) (bs : Z)
    (atts : list string) (log_file : file SendLog) :
  let r := process_embassies env path data bs atts log_file in
  (load_sent_log (disk (final r))).1 ⊆ sent_log (final r)
  /\ ((forall k e m, fs_write env k <> WriteRaised e (Some m)) ->
      (load_sent_log log_file).1 ⊆ (load_sent_log (disk (final r))).1).
Proof.
  cbn zeta.
  destruct (process_embassies_loop env path data bs atts log_file) as (-> & _ & _).
  set (st0 := {| sent_log := (load_sent_log log_file).1; disk := log_file; processed := 0 |}).
  by apply (loop_disk env bs atts _ _ st0).
Qed.

(** *** Claim C3 *)

(** C3, as stated, fails in two ways.  With a batch size of zero the
    check after the message for Freedonia raises and the run ends:
    Sylvania, which is not in the send log and has an address, gets no
    message.  And when the write of the log raises, the entry for
    Freedonia, whose message the relay took, is in the log of the run
    but not in the file. *)
Lemma C3_counterexample :
  (let r := process_embassies env_up data_path (Holds two_countries) 0 pdf Missing in
   (load_sent_log Missing).1 !! "Sylvania" = None
   /\ ("Sylvania", Found ["embassy@sylvania.org"]) ∈ two_countries
   /\ submits (trace r) = [("visa@freedonia.gov", "Freedonia")]
   /\ ended r = Exception "integer modulo by zero")
  /\ (let r := process_embassies env_disk_full data_path (Holds [freedonia]) 10 pdf Missing in
      smtp env_disk_full 1 "visa@freedonia.gov" "Freedonia" = Delivered
      /\ submits (trace r) = [("visa@freedonia.gov", "Freedonia")]
      /\ sent_log (final r) = {["Freedonia" := freedonia_entry]}
      /\ writes (trace r) = [{["Freedonia" := freedonia_entry]}]
      /\ disk (final r) = Missing).
Proof.
  split.
  - cbn zeta. split; [done|]. split; [|by vm_compute].
    apply list_elem_of_further, list_elem_of_here.
  - by vm_compute.
Qed.

(** C3, amended.  The artifact has the country [c], with first
    address [e], after the countries [pre] and before the countries
    [post], its keys being distinct; [c] is not in the send log as
    loaded, and the loop gets to [c], no earlier turn having raised.
    Then the run hands exactly one message for [c] to the relay,
    addressed to [e].  When the relay takes it, the entry (first
    address, time stamp of the turn, "sent") is in the log from then
    on: the write of the log with the entry follows the submission
    directly, after whatever the run did for the countries before [c]
    and before whatever it does for the countries after [c], whose
    writes all hold the entry; and the file holds that log after the
    turn when the write does not raise. *)
Theorem C3_reached_country_gets_first_address (env : Env) (path : string) (bs : Z)
    (atts : list string) (log_file : file SendLog) (pre post : Artifact)
    (c e : string) (es : list string) :
  let data := pre ++ (c, Found (e :: es)) :: post in
  let st0 := {| sent_log := (load_sent_log log_file).1; disk := log_file; processed := 0 |} in
  NoDup data.*1 ->
  (load_sent_log log_file).1 !! c = None ->
  (loop env bs atts (length data) pre st0).2 = Next ->
  let r := process_embassies env path (Holds data) bs atts log_file in
  let k := S (length pre) in
  let x := {| email := e; sent_date := now env k; status := "sent" |} in
  filter (fun p => p.2 = c) (submits (trace r)) = [(e, c)]
  /\ (smtp env k e c = Delivered ->
      sent_log (final r) !! c = Some x
      /\ exists before after log',
           effects (trace r)
           = before ++ [Submit e c (attachable env atts); WriteLog log'; Sleep 60] ++ after
           /\ log' !! c = Some x
           /\ (load_sent_log log_file).1 ⊆ log'
           /\ (forall p, p ∈ submits before -> p.2 ∈ pre.*1)
           /\ (forall p, p ∈ submits after -> p.2 ∈ post.*1)
           /\ Forall (fun L => L !! c = None) (writes before)
           /\ Forall (fun L => log' ⊆ L) (writes after)
           /\ (fs_write env k = Written ->
               disk (loop env bs atts (length data) (pre ++ [(c, Found (e :: es))]) st0).1.1
               = Holds log')).
Proof.
  intros data st0 Hnd Hn Hr r k x.
  destruct (run_turn env path bs atts log_file pre post c e es Hnd Hn Hr)
    as ((Hp & Hc) & (Hpre & Hpost) & HN & HE).
  fold data st0 r in Hp, Hc, HN, HE.
  set (l1 := loop env bs atts (length data) pre st0) in *.
  set (s := process_country env bs atts (length data) l1.1.1 (c, Found (e :: es))) in *.
  set (l2 := loop env bs atts (length data) post s.1.1) in *.
  destruct (turn_first_address env bs atts (length data) l1.1.1 c e es Hc) as [Hs Hd].
  fold s in Hs, Hd. rewrite Hp in Hd. fold k in Hd.
  split; [by apply run_turn_submits|].
  intros Hdel. destruct (Hd Hdel) as (Hst & Hlog & Heff & Hfl & Hw).
  rewrite <- Hlog in Heff, Hw. set (log' := sent_log s.1.1) in *.
  assert (Hx : log' !! c = Some x) by (rewrite Hlog; apply lookup_insert_eq).
  assert (H0 : (load_sent_log log_file).1 ⊆ log').
  { rewrite Hlog. etrans; [|by apply insert_subseteq].
    by destruct (loop_invariant env bs atts (length data) pre st0) as (K & _). }
  assert (Hb : forall p, p ∈ submits (effects l1.1.2) -> p.2 ∈ pre.*1).
  { intros p. rewrite submits_effects. apply loop_keys. }
  assert (Hwb : Forall (fun L => L !! c = None) (writes (effects l1.1.2))).
  { rewrite writes_effects.
    destruct (loop_invariant env bs atts (length data) pre st0) as (_ & K & _).
    fold l1 in K. eapply Forall_impl; [exact K|]. intros L [_ HL].
    by eapply lookup_weaken_None. }
  assert (Hcut : (loop env bs atts (length data) (pre ++ [(c, Found (e :: es))]) st0).1.1
                 = s.1.1).
  { rewrite loop_app. cbn zeta. fold l1. rewrite Hr. cbn [fst snd].
    rewrite loop_cons. cbn zeta. fold s. destruct s.2; [by rewrite loop_nil|done|done]. }
  rewrite Hcut, add_attachments_names in *.
  assert (Hcase : s.2 = Next \/ s.2 <> Next) by (destruct s.2; [by left|by right..]).
  destruct Hcase as [E|E].
  - destruct (HN E) as (-> & _ & ->). split.
    + eapply lookup_weaken; [exact Hx|].
      by destruct (loop_invariant env bs atts (length data) post s.1.1) as (K & _).
    + exists (effects l1.1.2), (pause_effects bs k ++ effects l2.1.2), log'.
      rewrite Heff, <- !app_assoc. split; [done|]. split; [done|]. split; [done|].
      split; [done|]. split; [|split; [done|split; [|done]]].
      * intros p. rewrite submits_app, submits_effects.
        destruct (pause_effects_sleeps bs k) as (-> & _). cbn [app]. apply loop_keys.
      * rewrite writes_app, writes_effects.
        destruct (pause_effects_sleeps bs k) as (_ & -> & _). cbn [app].
        destruct (loop_invariant env bs atts (length data) post s.1.1) as (_ & K & _).
        fold l2 log' in K. eapply Forall_impl; [exact K|]. by intros L [HL _].
  - destruct (HE E) as (-> & _ & ->). split; [done|].
    exists (effects l1.1.2), (pause_effects bs k), log'.
    rewrite Heff, <- ?app_assoc. split; [done|]. split; [done|]. split; [done|].
    split; [done|]. split; [|split; [done|split; [|done]]].
    + intros p. destruct (pause_effects_sleeps bs k) as (-> & _). by intros ?%elem_of_nil.
    + destruct (pause_effects_sleeps bs k) as (_ & -> & _). constructor.
Qed.

Lemma C3_reached_country_gets_first_address_witness :
  NoDup ([ruritania] ++ freedonia :: [sylvania]).*1
  /\ (load_sent_log Missing).1 !! "Freedonia" = None
  /\ (loop env_up 10 pdf 3 [ruritania] state0).2 = Next
  /\ smtp env_up 2 "visa@freedonia.gov" "Freedonia" = Delivered
  /\ (let r := process_embassies env_up data_path (Holds [ruritania; freedonia; sylvania])
                 10 pdf Missing in
      filter (fun p => p.2 = "Freedonia") (submits (trace r))
      = [("visa@freedonia.gov", "Freedonia")]
      /\ sent_log (final r) !! "Freedonia"
         = Some {| email := "visa@freedonia.gov"; sent_date := "2024-05-01T10:02:00";
                   status := "sent" |}).
Proof.
  assert (Hnd : NoDup ([ruritania] ++ freedonia :: [sylvania]).*1).
  { refine (bool_decide_eq_true_1 _ _). vm_compute. reflexivity. }
  assert (Hn : (load_sent_log Missing).1 !! "Freedonia" = None) by reflexivity.
  assert (Hr : (loop env_up 10 pdf 3 [ruritania] state0).2 = Next) by (vm_compute; reflexivity).
  assert (Hd : smtp env_up 2 "visa@freedonia.gov" "Freedonia" = Delivered) by reflexivity.
  split; [exact Hnd|]. split; [exact Hn|]. split; [exact Hr|]. split; [exact Hd|].
  destruct (C3_reached_country_gets_first_address env_up data_path 10 pdf Missing
              [ruritania] [sylvania] "Freedonia" "visa@freedonia.gov"
              ["consul@freedonia.gov"] Hnd Hn Hr) as [H1 H2].
  destruct (H2 Hd) as [H3 _].
  split; [exact H1|exact H3].
Defined.

(** *** Claim C4 *)

(** C4, as stated, fails: with a batch size of zero the check after
    the failed send to Freedonia raises, and the loop does not go on
    with Sylvania. *)
Lemma C4_counterexample :
  let r := process_embassies env_down data_path (Holds two_countries) 0 pdf Missing in
  smtp env_down 1 "visa@freedonia.gov" "Freedonia" = Raised "[Errno 111] Connection refused"
  /\ submits (trace r) = [("visa@freedonia.gov", "Freedonia")]
  /\ processed (final r) = 1 /\ length two_countries = 2
  /\ ended r = Exception "integer modulo by zero".
Proof. by vm_compute. Qed.

(** C4, amended.  The artifact has the country [c], with first
    address [e], after the countries [pre] and before the countries
    [post], its keys being distinct; [c] is not in the send log as
    loaded, the loop gets to [c], and sending its message raises.
    Then the run makes that one attempt for [c] and no entry: [c] is
    not in the log at the end of the run, in nothing the run writes to
    the file, and not in the file after the run.  A later run over the
    artifact, started from that file, hands a message for [c] to the
    relay again if its loop gets to [c].  When the batch size is not
    zero the loop goes on after the failed send: the run continues as
    the loop over [post], and counts past [c] when there is a next
    country.  When the batch size is zero the check after the attempt
    raises and the run ends there. *)
Theorem C4_failed_send_is_retried (env env2 : Env) (path : string) (bs bs2 : Z)
    (atts atts2 : list string) (log_file : file SendLog) (pre post : Artifact)
    (c e msg : string) (es : list string) :
  let data := pre ++ (c, Found (e :: es)) :: post in
  let st0 := {| sent_log := (load_sent_log log_file).1; disk := log_file; processed := 0 |} in
  NoDup data.*1 ->
  (load_sent_log log_file).1 !! c = None ->
  (loop env bs atts (length data) pre st0).2 = Next ->
  smtp env (S (length pre)) e c = Raised msg ->
  let r := process_embassies env path (Holds data) bs atts log_file in
  let l1 := loop env bs atts (length data) pre st0 in
  let l2 := loop env bs atts (length data) post (bump l1.1.1) in
  let attempt := Submit e c (attachable env atts) in
  filter (fun p => p.2 = c) (submits (trace r)) = [(e, c)]
  /\ sent_log (final r) !! c = None
  /\ Forall (fun L => L !! c = None) (writes (trace r))
  /\ (load_sent_log (disk (final r))).1 !! c = None
  /\ (let st0' := {| sent_log := (load_sent_log (disk (final r))).1; disk := disk (final r);
                     processed := 0 |} in
      (loop env2 bs2 atts2 (length data) pre st0').2 = Next ->
      filter (fun p => p.2 = c)
        (submits (trace (process_embassies env2 path (Holds data) bs2 atts2 (disk (final r)))))
      = [(e, c)])
  /\ (bs <> 0%Z ->
      final r = l2.1.1 /\ ended r = l2.2
      /\ effects (trace r)
         = effects l1.1.2 ++ (attempt :: pause_effects bs (S (length pre))) ++ effects l2.1.2
      /\ (post <> [] -> S (length pre) < processed (final r)))
  /\ (bs = 0%Z ->
      final r = bump l1.1.1 /\ ended r = Exception "integer modulo by zero"
      /\ effects (trace r) = effects l1.1.2 ++ [attempt]).
Proof.
  intros data st0 Hnd Hn Hr Hraise r l1 l2 attempt.
  destruct (run_turn env path bs atts log_file pre post c e es Hnd Hn Hr)
    as ((Hp & Hc) & (Hpre & Hpost) & HN & HE).
  fold data st0 r l1 in Hp, Hc, HN, HE.
  pose proof (step_attempt env bs atts (length data) l1.1.1 c e es Hc) as Hs.
  cbn zeta in Hs. rewrite Hp, Hraise, add_attachments_names in Hs. fold attempt in Hs.
  set (s := process_country env bs atts (length data) l1.1.1 (c, Found (e :: es))) in *.
  destruct Hs as (Hst & Heff & Hfl). rewrite Hst in HN, HE. fold l2 in HN.
  assert (Hfinal : sent_log (final r) !! c = None).
  { assert (Hcase : s.2 = Next \/ s.2 <> Next) by (destruct s.2; [by left|by right..]).
    destruct Hcase as [E|E].
    - destruct (HN E) as (-> & _). by apply loop_new_keys.
    - by destruct (HE E) as (-> & _). }
  destruct (run_invariant env path (Holds data) bs atts log_file) as (_ & Hw & _).
  destruct (run_disk env path (Holds data) bs atts log_file) as (Hd & _).
  fold r in Hw, Hd.
  assert (Hfile : (load_sent_log (disk (final r))).1 !! c = None)
    by exact (lookup_weaken_None _ _ _ Hfinal Hd).
  split; [by apply run_turn_submits|]. split; [done|]. split; [|split; [done|split; [|split]]].
  - eapply Forall_impl; [exact Hw|]. intros L [_ HL].
    exact (lookup_weaken_None _ _ _ Hfinal HL).
  - intros st0' Hr2. by apply run_turn_submits.
  - intros Hbs. assert (E : s.2 = Next) by (rewrite Hfl; unfold pause_flow; by rewrite decide_False).
    destruct (HN E) as (H1 & H2 & H3). rewrite H3, Heff. split; [done|]. split; [done|].
    split; [done|]. intros Hpost'. rewrite H1.
    destruct (loop_processed env bs atts (length data) post (bump l1.1.1)) as (_ & _ & K).
    fold l2 in K. specialize (K Hpost'). cbn [bump processed] in K. lia.
  - intros Hbs. assert (E : s.2 = Exception "integer modulo by zero")
      by (rewrite Hfl; unfold pause_flow; by rewrite decide_True).
    assert (E' : s.2 <> Next) by (by rewrite E).
    destruct (HE E') as (H1 & H2 & H3). rewrite H3, Heff, H2, E. split; [done|].
    split; [done|]. unfold pause_effects. by rewrite decide_True.
Qed.

Lemma C4_failed_send_is_retried_witness :
  NoDup ([ruritania] ++ freedonia :: [sylvania]).*1
  /\ (load_sent_log Missing).1 !! "Freedonia" = None
  /\ (loop env_down 10 pdf 3 [ruritania] state0).2 = Next
  /\ smtp env_down 2 "visa@freedonia.gov" "Freedonia" = Raised "[Errno 111] Connection refused"
  /\ (let r := process_embassies env_down data_path (Holds [ruritania; freedonia; sylvania])
                 10 pdf Missing in
      sent_log (final r) !! "Freedonia" = None
      /\ (load_sent_log (disk (final r))).1 !! "Freedonia" = None
      /\ 2 < processed (final r)
      /\ filter (fun p => p.2 = "Freedonia")
           (submits (trace (process_embassies env_up data_path
                              (Holds [ruritania; freedonia; sylvania]) 10 pdf (disk (final r)))))
         = [("visa@freedonia.gov", "Freedonia")]).
Proof.
  assert (Hnd : NoDup ([ruritania] ++ freedonia :: [sylvania]).*1).
  { refine (bool_decide_eq_true_1 _ _). vm_compute. reflexivity. }
  assert (Hn : (load_sent_log Missing).1 !! "Freedonia" = None) by reflexivity.
  assert (Hr : (loop env_down 10 pdf 3 [ruritania] state0).2 = Next)
    by (vm_compute; reflexivity).
  assert (Hf : smtp env_down 2 "visa@freedonia.gov" "Freedonia"
               = Raised "[Errno 111] Connection refused") by reflexivity.
  split; [exact Hnd|]. split; [exact Hn|]. split; [exact Hr|]. split; [exact Hf|].
  destruct (C4_failed_send_is_retried env_down env_up data_path 10 10 pdf pdf Missing
              [ruritania] [sylvania] "Freedonia" "visa@freedonia.gov"
              "[Errno 111] Connection refused" ["consul@freedonia.gov"] Hnd Hn Hr Hf)
    as (_ & H2 & _ & H4 & H5 & H6 & _).
  assert (Hbs : 10%Z <> 0%Z) by lia.
  destruct (H6 Hbs) as (_ & _ & _ & H7).
  split; [exact H2|]. split; [exact H4|]. split; [apply H7; discriminate|].
  apply H5. vm_compute. reflexivity.
Defined.

(** *** Claim C9 *)

(** C9, as stated, fails across runs.  The first run writes the entry
    for Freedonia to the file; its second write is cut short, and the
    file can no longer be read.  The run of the next day loads an
    empty log, sends to Freedonia again, and puts a new entry, with a
    new time stamp, in the place of the old one. *)
Lemma C9_counterexample :
  let r1 := process_embassies env_cut_short data_path (Holds two_countries) 10 pdf Missing in
  let r2 := process_embassies env_next_day data_path (Holds two_countries) 10 pdf
              (disk (final r1)) in
  head (writes (trace r1)) = Some {["Freedonia" := freedonia_entry]}
  /\ sent_log (final r1) !! "Freedonia" = Some freedonia_entry
  /\ disk (final r1) = Unreadable "Expecting value: line 1 column 1 (char 0)"
  /\ submits (trace r2)
     = [("visa@freedonia.gov", "Freedonia"); ("embassy@sylvania.org", "Sylvania")]
  /\ sent_log (final r2) !! "Freedonia" = Some freedonia_entry_next_day
  /\ (load_sent_log (disk (final r2))).1 !! "Freedonia" = Some freedonia_entry_next_day
  /\ freedonia_entry_next_day <> freedonia_entry.
Proof. by vm_compute. Qed.

(** C9, amended.  Within a run, through any number of turns and from
    any state, every entry of the send log stays as it is (the log
    only grows, and a key of a map has one entry), whatever is written
    to the file lies between the log at the start and the log at the
    end, and every entry that was added belongs to a country of the
    artifact, names its first address, and was made for a message that
    the relay took.  As for the file: after a run it holds no entry
    that the log of the run lacks, and, as long as no write of the run
    is cut short, it still holds every entry it held when the run
    began, so that a later run started from it loads them, keeps them
    in its log, and, under the same condition, in the file. *)
Theorem C9_entries_kept_while_file_reads (env env2 : Env) (path path2 : string)
    (data data2 : file Artifact) (bs bs2 : Z) (atts atts2 : list string) (total : nat)
    (items : Artifact) (st : state) (log_file : file SendLog) :
  (let l := loop env bs atts total items st in
   sent_log st ⊆ sent_log l.1.1
   /\ Forall (fun L => sent_log st ⊆ L /\ L ⊆ sent_log l.1.1) (writes l.1.2)
   /\ (forall c x, sent_log l.1.1 !! c = Some x -> sent_log st !! c = None ->
         entry_from_run env items l.1.2 c x)
   /\ ((load_sent_log (disk st)).1 ⊆ sent_log st ->
       (load_sent_log (disk l.1.1)).1 ⊆ sent_log l.1.1
       /\ ((forall k e m, fs_write env k <> WriteRaised e (Some m)) ->
           (load_sent_log (disk st)).1 ⊆ (load_sent_log (disk l.1.1)).1)))
  /\ (let r := process_embassies env path data bs atts log_file in
      let log0 := (load_sent_log log_file).1 in
      let kept := (load_sent_log (disk (final r))).1 in
      log0 ⊆ sent_log (final r)
      /\ Forall (fun L => log0 ⊆ L /\ L ⊆ sent_log (final r)) (writes (trace r))
      /\ (forall c x, sent_log (final r) !! c = Some x -> log0 !! c = None ->
            entry_from_run env (load_embassy_data path data).1 (trace r) c x)
      /\ kept ⊆ sent_log (final r)
      /\ ((forall k e m, fs_write env k <> WriteRaised e (Some m)) ->
          log0 ⊆ kept
          /\ (let r2 := process_embassies env2 path2 data2 bs2 atts2 (disk (final r)) in
              kept ⊆ sent_log (final r2)
              /\ log0 ⊆ sent_log (final r2)
              /\ ((forall k e m, fs_write env2 k <> WriteRaised e (Some m)) ->
                  kept ⊆ (load_sent_log (disk (final r2))).1
                  /\ log0 ⊆ (load_sent_log (disk (final r2))).1)))).
Proof.
  split.
  - cbn zeta. destruct (loop_invariant env bs atts total items st) as (H1 & H2 & H3).
    split; [done|]. split; [done|]. split; [done|]. apply loop_disk.
  - cbn zeta. destruct (run_invariant env path data bs atts log_file) as (H1 & H2 & H3).
    destruct (run_disk env path data bs atts log_file) as (H4 & H5).
    split; [done|]. split; [done|]. split; [done|]. split; [done|].
    intros Hw. specialize (H5 Hw). split; [done|].
    destruct (run_invariant env2 path2 data2 bs2 atts2
                (disk (final (process_embassies env path data bs atts log_file))))
      as (K1 & _).
    destruct (run_disk env2 path2 data2 bs2 atts2
                (disk (final (process_embassies env path data bs atts log_file))))
      as (_ & K2).
    split; [done|]. split; [by etrans|].
    intros Hw2. specialize (K2 Hw2). split; [done|by etrans].
Qed.

Lemma C9_entries_kept_while_file_reads_witness :
  let r := process_embassies env_up data_path (Holds [freedonia; ruritania; sylvania]) 10 pdf
             (Holds {["Ruritania" := ruritania_entry]}) in
  let r2 := process_embassies env_next_day data_path (Holds [freedonia; ruritania; sylvania])
              10 pdf (disk (final r)) in
  (forall k e m, fs_write env_up k <> WriteRaised e (Some m))
  /\ sent_log (final r) !! "Ruritania" = Some ruritania_entry
  /\ sent_log (final r) !! "Freedonia" = Some freedonia_entry
  /\ entry_from_run env_up [freedonia; ruritania; sylvania] (trace r) "Freedonia" freedonia_entry
  /\ (load_sent_log (disk (final r))).1 !! "Ruritania" = Some ruritania_entry
  /\ sent_log (final r2) !! "Freedonia" = Some freedonia_entry
  /\ (load_sent_log (disk (final r2))).1 !! "Ruritania" = Some ruritania_entry.
Proof.
  cbn zeta.
  assert (Hw : forall k e m, fs_write env_up k <> WriteRaised e (Some m)) by done.
  assert (Hw2 : forall k e m, fs_write env_next_day k <> WriteRaised e (Some m)) by done.
  destruct (C9_entries_kept_while_file_reads env_up env_next_day data_path data_path
              (Holds [freedonia; ruritania; sylvania]) (Holds [freedonia; ruritania; sylvania])
              10 10 pdf pdf 0 [] state0 (Holds {["Ruritania" := ruritania_entry]}))
    as (_ & H1 & _ & H3 & _ & H5).
  destruct (H5 Hw) as (H6 & H7 & _ & H9). destruct (H9 Hw2) as (_ & H10).
  assert (Hf : sent_log (final (process_embassies env_up data_path
                 (Holds [freedonia; ruritania; sylvania]) 10 pdf
                 (Holds {["Ruritania" := ruritania_entry]}))) !! "Freedonia"
               = Some freedonia_entry) by (vm_compute; reflexivity).
  assert (Hr : (load_sent_log (Holds {["Ruritania" := ruritania_entry]})).1 !! "Ruritania"
               = Some ruritania_entry) by (vm_compute; reflexivity).
  split; [exact Hw|]. split; [by eapply lookup_weaken|]. split; [exact Hf|].
  split; [apply H3; [exact Hf|vm_compute; reflexivity]|].
  split; [by eapply lookup_weaken|].
  split; [|by eapply lookup_weaken].
  eapply lookup_weaken; [|exact H7]. vm_compute. reflexivity.
Defined.

End ServiceRuns.
